(** * em-cli: command registry, tokenizer and dispatcher of the STM32 serial shell

    A shallow embedding of [em-cli.c] / [em-cli.h].

    Conventions of the embedding.
    - A [char *] is modelled by the window of memory it points to: a
      [list ascii] holding the bytes from the pointer onwards.  Reading past
      the end of the window yields NUL, so a window also stands for every
      memory that continues with zero bytes.  A NULL pointer is [None].
      Advancing a pointer ([p++]) is taking the tail of its window.
    - The C string at a pointer is the part of the window before its first
      NUL ([cstr]); bytes after that NUL are still part of the window, so
      reads behind a terminator (as [p_command_input[command_length]] does)
      and writes behind a declared capacity stay observable.
    - [base_type], [int32_t], [int8_t] and [size_t] values are integers in
      [Z].  Strings and counts are bounded by the length of the windows
      involved, far below 2^31 on the target, so the value-preserving casts
      between them are not written; the unsigned comparison and the [size_t]
      arithmetic of the source are written with their wrap-around. *)

From Stdlib Require Import ZArith Lia Ascii.
From stdpp Require Import strings list.

Local Open Scope Z_scope.

(** ** Characters *)

Definition CHAR_SPACE : ascii := " "%char.
Definition CHAR_NULL : ascii := Ascii.ascii_of_nat 0.
Definition CHAR_CARRIAGE_RET : ascii := Ascii.ascii_of_nat 13.
Definition CHAR_NEWLINE : ascii := Ascii.ascii_of_nat 10.
Definition CHAR_DQUOTE : ascii := Ascii.ascii_of_nat 34.

Definition mem := list ascii.

(** A string literal of the source as the bytes it denotes (without its
    terminator). *)
Definition lit (s : string) : mem := String.list_ascii_of_string s.

Definition CRLF : mem := [CHAR_CARRIAGE_RET; CHAR_NEWLINE].

(** ** The parts of the C library the source calls *)

Module libc.

(** [*p] *)
Definition deref (p : mem) : ascii := hd CHAR_NULL p.

(** [p[i]] *)
Definition index (p : mem) (i : nat) : ascii := nth i p CHAR_NULL.

(** The C string stored at [p]: the bytes before the first NUL. *)
Fixpoint cstr (p : mem) : list ascii :=
  match p with
  | [] => []
  | c :: p' => if Ascii.eqb c CHAR_NULL then [] else c :: cstr p'
  end.

Definition strlen (p : mem) : nat := length (cstr p).

(** [strncmp a b n]: compares at most [n] characters, stopping behind a
    NUL; the result is the difference of the first differing pair. *)
Fixpoint strncmp (a b : mem) (n : nat) : Z :=
  match n with
  | O => 0
  | S k =>
      let ca := deref a in
      let cb := deref b in
      if Ascii.eqb ca cb
      then if Ascii.eqb ca CHAR_NULL then 0 else strncmp (tl a) (tl b) k
      else Z.of_nat (Ascii.nat_of_ascii ca) - Z.of_nat (Ascii.nat_of_ascii cb)
  end.

(** Storing [bytes] at offset [off] of the window [m].  A store behind the
    end of the window lands in the zero bytes the window is followed by. *)
Definition store (m : mem) (off : nat) (bytes : list ascii) : mem :=
  take off m ++ replicate (off - length m) CHAR_NULL
    ++ bytes ++ drop (off + length bytes) m.

(** [memset(m, 0, n)] *)
Definition memset0 (m : mem) (n : nat) : mem :=
  store m 0 (replicate n CHAR_NULL).

(** [strncpy(dst, src, n)]: exactly [n] bytes are written, the characters
    of [src] and then NUL padding; no terminator if [src] has [n] or more
    characters. *)
Definition strncpy (dst src : mem) (n : nat) : mem :=
  store dst 0 (take n (cstr src ++ replicate n CHAR_NULL)).

(** [strncat(dst, src, n)]: at most [n] characters of [src] are appended
    behind the string at [dst], followed by a terminator. *)
Definition strncat (dst src : mem) (n : nat) : mem :=
  store dst (strlen dst) (take n (cstr src) ++ [CHAR_NULL]).

(** [sprintf(dst, fmt, ...)] once the format has been expanded to [text]:
    the text and its terminator are written, whatever the size of [dst]. *)
Definition sprintf (dst : mem) (text : list ascii) : mem :=
  store dst 0 (text ++ [CHAR_NULL]).

End libc.

(** ** em-cli.h *)

Definition CLI_FALSE : Z := 0.
Definition CLI_TRUE : Z := 1.
Definition CLI_PASS : Z := 1.
Definition CLI_MAX_COMMANDS : Z := 10.
Definition CLI_WRITE_BUFFER_SIZE : Z := 512.

(** ** Tokenizer *)

Definition is_eol (c : ascii) : bool :=
  Ascii.eqb c CHAR_NULL || Ascii.eqb c CHAR_CARRIAGE_RET
  || Ascii.eqb c CHAR_NEWLINE.

Definition is_space (c : ascii) : bool := Ascii.eqb c CHAR_SPACE.

(** The [while] loop of [cli_get_parameter_count], on the loop variables
    [param_count] and [is_prev_space]. *)
Fixpoint count_loop (p : mem) (param_count is_prev_space : Z) : Z * Z :=
  match p with
  | [] => (param_count, is_prev_space)
  | c :: p' =>
      if negb (Ascii.eqb c CHAR_NULL) && negb (Ascii.eqb c CHAR_CARRIAGE_RET)
         && negb (Ascii.eqb c CHAR_NEWLINE)
      then
        if Ascii.eqb c CHAR_SPACE
        then
          if negb (is_prev_space =? CLI_PASS)
          then count_loop p' (param_count + 1) CLI_PASS
          else count_loop p' param_count is_prev_space
        else count_loop p' param_count CLI_FALSE
      else (param_count, is_prev_space)
  end.

Definition cli_get_parameter_count (p_command_string : option mem) : Z :=
  match p_command_string with
  | None => 0
  | Some p =>
      let '(param_count, is_prev_space) := count_loop p 0 CLI_FALSE in
      if is_prev_space =? CLI_PASS then param_count - 1 else param_count
  end.

(** "Skip current word" *)
Fixpoint skip_word (p : mem) : mem :=
  match p with
  | [] => []
  | c :: p' =>
      if negb (Ascii.eqb c CHAR_NULL) && negb (Ascii.eqb c CHAR_SPACE)
         && negb (Ascii.eqb c CHAR_CARRIAGE_RET)
         && negb (Ascii.eqb c CHAR_NEWLINE)
      then skip_word p'
      else p
  end.

(** "Skip spaces" *)
Fixpoint skip_spaces (p : mem) : mem :=
  match p with
  | [] => []
  | c :: p' =>
      if negb (Ascii.eqb c CHAR_NULL) && Ascii.eqb c CHAR_SPACE
      then skip_spaces p'
      else p
  end.

(** "Found target parameter - measure its length": the inner loop that
    increments [*p_parameter_length]. *)
Fixpoint measure_word (p : mem) (parameter_length : Z) : Z :=
  match p with
  | [] => parameter_length
  | c :: p' =>
      if negb (Ascii.eqb c CHAR_NULL) && negb (Ascii.eqb c CHAR_SPACE)
         && negb (Ascii.eqb c CHAR_CARRIAGE_RET)
         && negb (Ascii.eqb c CHAR_NEWLINE)
      then measure_word p' (parameter_length + 1)
      else parameter_length
  end.

(** The outer [while (params_found < wanted_parameter)] loop.  Every
    iteration that does not leave the loop increments [params_found], so
    [wanted_parameter - params_found] iterations are enough; [fuel] is
    given that value by [cli_get_parameter]. *)
Fixpoint param_loop (fuel : nat) (p : mem)
    (params_found wanted_parameter parameter_length : Z) : option mem * Z :=
  match fuel with
  | O => (None, parameter_length)
  | S fuel' =>
      if params_found <? wanted_parameter
      then
        let p1 := skip_word p in
        let p2 := skip_spaces p1 in
        if negb (Ascii.eqb (libc.deref p2) CHAR_NULL)
           && negb (Ascii.eqb (libc.deref p2) CHAR_CARRIAGE_RET)
           && negb (Ascii.eqb (libc.deref p2) CHAR_NEWLINE)
        then
          let params_found' := params_found + 1 in
          if params_found' =? wanted_parameter
          then
            let parameter_length' := measure_word p2 parameter_length in
            (if 0 =? parameter_length' then None else Some p2,
             parameter_length')
          else param_loop fuel' p2 params_found' wanted_parameter
                 parameter_length
        else (None, parameter_length)
      else (None, parameter_length)
  end.

(** [cli_get_parameter].  The out-parameter [p_parameter_length] is [None]
    for a NULL pointer and otherwise holds the cell's value; the result is
    the returned pointer ([None] for NULL) and the cell afterwards. *)
Definition cli_get_parameter (p_command_string : option mem)
    (wanted_parameter : Z) (p_parameter_length : option Z)
    : option mem * option Z :=
  match p_command_string, p_parameter_length with
  | Some p, Some _ =>
      let '(p_return_param, len) :=
        param_loop (Z.to_nat wanted_parameter) p 0 wanted_parameter 0 in
      (p_return_param, Some len)
  | _, _ => (None, p_parameter_length)
  end.

(** ** The words of a line, as the specification describes them

    A line ends at the first NUL, carriage return or line feed.  Its words
    are the maximal runs of characters other than space before that end.
    [word_spans_from] lists every word as its offset in the line and its
    length; [in_word] tells whether the previous character belonged to a
    word. *)

Definition is_word_char (c : ascii) : bool := negb (is_eol c) && negb (is_space c).

Fixpoint word_len (s : mem) : nat :=
  match s with
  | [] => O
  | c :: s' => if is_word_char c then S (word_len s') else O
  end.

Fixpoint word_spans_from (in_word : bool) (off : nat) (s : mem)
    : list (nat * nat) :=
  match s with
  | [] => []
  | c :: s' =>
      if is_eol c then []
      else if is_space c then word_spans_from false (S off) s'
      else (if in_word then [] else [(off, word_len s)])
             ++ word_spans_from true (S off) s'
  end.

(** All words of the line, the command word included. *)
Definition line_words (line : mem) : list (nat * nat) :=
  word_spans_from false O line.

(** The words after the first (command) word. *)
Definition parameter_words (line : mem) : list (nat * nat) :=
  tl (line_words line).

(** The line proper: the characters before the first NUL, CR or LF. *)
Fixpoint line_text (s : mem) : list ascii :=
  match s with
  | [] => []
  | c :: s' => if is_eol c then [] else c :: line_text s'
  end.

(** What the specification says [parameter_count] returns. *)
Definition counts_parameter_words (line : mem) : Prop :=
  cli_get_parameter_count (Some line)
  = Z.of_nat (length (parameter_words line)).

(** What the specification says [get_parameter] returns for the index [n]:
    the start and length of the [n]-th word after the command token, or
    absent with length 0. *)
Definition nth_parameter_word (line : mem) (n : Z) : option mem * option Z :=
  match (if 0 <? n then parameter_words line !! Z.to_nat (n - 1) else None) with
  | Some (o, l) => (Some (drop o line), Some (Z.of_nat l))
  | None => (None, Some 0)
  end.

Definition gets_parameter_word (line : mem) (n : Z) : Prop :=
  forall v : Z,
    cli_get_parameter (Some line) n (Some v) = nth_parameter_word line n.

(** The words that follow a space: every word of the line but a word at
    its very start. *)
Definition words_after_space (line : mem) : list (nat * nat) :=
  word_spans_from true O line.

(** The function counts every word of the line, the first included. *)
Definition counts_line_words (line : mem) : Prop :=
  cli_get_parameter_count (Some line) = Z.of_nat (length (line_words line)).

(** The index [n] selects the [n]-th word of the list [words]. *)
Definition nth_word_of (words : list (nat * nat)) (line : mem) (n : Z)
    : option mem * option Z :=
  match (if 0 <? n then words !! Z.to_nat (n - 1) else None) with
  | Some (o, l) => (Some (drop o line), Some (Z.of_nat l))
  | None => (None, Some 0)
  end.

(** The index [n] selects the [n]-th word of the line, the first
    included. *)
Definition gets_line_word (line : mem) (n : Z) : Prop :=
  forall v : Z,
    cli_get_parameter (Some line) n (Some v)
    = nth_word_of (line_words line) line n.

(** ** Command registry *)

(** A handler function pointer.  The three built-in handlers are the
    functions of [em-cli.c]; [fn_user k] is the [k]-th handler supplied by
    the application; [fn_null] is the null pointer of a zero-initialised
    slot. *)
Inductive interpreter : Type :=
  | fn_null
  | fn_help
  | fn_set
  | fn_get
  | fn_user (id : nat).

Record cli_command_definition_t : Type := {
  p_command : mem;
  p_help_string : mem;
  p_command_interpreter : interpreter;
  expected_parameter_count : Z
}.

(** The globals of [em-cli.c], together with the function-local static
    [command_index] of [cli_process_command]. *)
Record cli_state : Type := {
  g_commands_array : list cli_command_definition_t;
  g_command_count : Z;
  command_index : Z
}.

(** A slot of the zero-initialised array that was never written. *)
Definition zero_command : cli_command_definition_t :=
  {| p_command := []; p_help_string := [];
     p_command_interpreter := fn_null; expected_parameter_count := 0 |}.

(** [g_commands_array[i]].  The source only reads slots below
    [g_command_count]; see [registry_ok]. *)
Definition slot (st : cli_state) (i : Z) : cli_command_definition_t :=
  default zero_command (g_commands_array st !! Z.to_nat i).

Definition initial_state : cli_state :=
  {| g_commands_array := replicate (Z.to_nat CLI_MAX_COMMANDS) zero_command;
     g_command_count := 0;
     command_index := 0 |}.

(** The shape every reachable registry has. *)
Definition registry_ok (st : cli_state) : Prop :=
  length (g_commands_array st) = Z.to_nat CLI_MAX_COMMANDS
  /\ 0 <= g_command_count st <= CLI_MAX_COMMANDS.

(** [cli_register_command].  [CLI_MAX_COMMANDS] is [10u], so the comparison
    is made on the unsigned value of the count. *)
Definition cli_register_command (st : cli_state)
    (p_command_to_register : option cli_command_definition_t)
    : Z * cli_state :=
  match p_command_to_register with
  | Some d =>
      if (g_command_count st) mod 2 ^ 32 <? CLI_MAX_COMMANDS
      then (CLI_TRUE,
            {| g_commands_array :=
                 <[Z.to_nat (g_command_count st) := d]> (g_commands_array st);
               g_command_count := g_command_count st + 1;
               command_index := command_index st |})
      else (CLI_FALSE, st)
  | None => (CLI_FALSE, st)
  end.

(** ** Message constants *)

Definition CLI_MSG_INCORRECT_PARAMS : mem :=
  lit "Incorrect command parameter(s). Enter " ++ [CHAR_DQUOTE] ++ lit "help"
    ++ [CHAR_DQUOTE] ++ lit " to view commands." ++ CRLF ++ CRLF.
Definition CLI_MSG_NOT_RECOGNIZED : mem :=
  lit "Command not recognized. Enter 'help' to view commands." ++ CRLF ++ CRLF.
Definition CLI_MSG_HELP_HEADER : mem := lit "Available commands:" ++ CRLF.
Definition CLI_MSG_MISSING_PARAM : mem := lit "Error: Missing parameter" ++ CRLF.

(** ** Built-in handlers *)

(** The body of the [if] in the listing loop of [cli_help_interpreter]:
    one entry is appended when the space check passes. *)
Definition help_entry (buf : mem) (write_buffer_len current_len : Z)
    (p_cmd_name : mem) : mem * Z :=
  let cmd_name_len := Z.of_nat (libc.strlen p_cmd_name) in
  if (current_len + cmd_name_len + 5) mod 2 ^ 32 <? write_buffer_len
  then
    let room := Z.to_nat ((write_buffer_len - current_len - 1) mod 2 ^ 32) in
    let buf1 := libc.strncat buf (lit "  ") room in
    let buf2 := libc.strncat buf1 p_cmd_name room in
    let buf3 := libc.strncat buf2 CRLF room in
    (buf3, Z.of_nat (libc.strlen buf3))
  else (buf, current_len).

(** [for (cmd_index = 0; cmd_index < g_command_count; cmd_index++)] *)
Fixpoint help_loop (st : cli_state) (fuel : nat) (cmd_index : Z)
    (buf : mem) (write_buffer_len current_len : Z) : mem :=
  match fuel with
  | O => buf
  | S fuel' =>
      if cmd_index <? g_command_count st
      then
        if 0 =? cmd_index
        then help_loop st fuel' (cmd_index + 1) buf write_buffer_len current_len
        else
          let '(buf', current_len') :=
            help_entry buf write_buffer_len current_len
              (p_command (slot st cmd_index)) in
          help_loop st fuel' (cmd_index + 1) buf' write_buffer_len current_len'
      else buf
  end.

Definition cli_help_interpreter (st : cli_state)
    (p_write_buffer : option mem) (write_buffer_len : Z)
    (p_command_string : option mem) : Z * option mem :=
  match p_write_buffer with
  | None => (CLI_FALSE, None)
  | Some buf =>
      let buf := libc.memset0 buf (Z.to_nat write_buffer_len) in
      let buf := libc.strncpy buf CLI_MSG_HELP_HEADER (Z.to_nat write_buffer_len) in
      let current_len := Z.of_nat (libc.strlen buf) in
      (CLI_FALSE,
       Some (help_loop st (Z.to_nat (g_command_count st)) 0 buf
               write_buffer_len current_len))
  end.

(** The locals [char param1[50]] and the like start with indeterminate
    contents; [stack_junk] stands for them and [stage_cstr] shows that the
    handlers do not depend on it. *)
Definition stack_junk : mem := replicate 50 "?"%char.

(** [strncpy(param, p_param, param_len); param[param_len] = CHAR_NULL;] *)
Definition stage (junk p_param : mem) (param_len : Z) : mem :=
  libc.store (libc.strncpy junk p_param (Z.to_nat param_len))
    (Z.to_nat param_len) [CHAR_NULL].

(** [cli_get_parameter(p_command_string, n, &param_len)] with the local
    [param_len]: the returned pointer and the value left in [param_len]. *)
Definition get_param (line : mem) (n : Z) : option mem * Z :=
  let r := cli_get_parameter (Some line) n (Some 0) in
  (fst r, default 0 (snd r)).

Definition cli_set_interpreter (p_write_buffer : option mem)
    (write_buffer_len : Z) (p_command_string : option mem)
    : Z * option mem :=
  match p_write_buffer, p_command_string with
  | Some buf, Some line =>
      let buf := libc.memset0 buf (Z.to_nat write_buffer_len) in
      match get_param line 1 with
      | (Some p_param, param_len) =>
          if param_len <? 50
          then
            let param1 := stage stack_junk p_param param_len in
            match get_param line 2 with
            | (Some p_param, param_len) =>
                if param_len <? 50
                then
                  let param2 := stage stack_junk p_param param_len in
                  (CLI_FALSE,
                   Some (libc.sprintf buf
                           (lit "Set " ++ libc.cstr param1 ++ lit " = "
                              ++ libc.cstr param2 ++ CRLF)))
                else
                  (CLI_FALSE,
                   Some (libc.strncpy buf CLI_MSG_MISSING_PARAM
                           (Z.to_nat write_buffer_len)))
            | (None, _) =>
                (CLI_FALSE,
                 Some (libc.strncpy buf CLI_MSG_MISSING_PARAM
                         (Z.to_nat write_buffer_len)))
            end
          else
            (CLI_FALSE,
             Some (libc.strncpy buf CLI_MSG_MISSING_PARAM
                     (Z.to_nat write_buffer_len)))
      | (None, _) =>
          (CLI_FALSE,
           Some (libc.strncpy buf CLI_MSG_MISSING_PARAM
                   (Z.to_nat write_buffer_len)))
      end
  | _, _ => (CLI_FALSE, p_write_buffer)
  end.

Definition cli_get_interpreter (p_write_buffer : option mem)
    (write_buffer_len : Z) (p_command_string : option mem)
    : Z * option mem :=
  match p_write_buffer, p_command_string with
  | Some buf, Some line =>
      let buf := libc.memset0 buf (Z.to_nat write_buffer_len) in
      match get_param line 1 with
      | (Some p_param, param_len) =>
          if param_len <? 50
          then
            let param := stage stack_junk p_param param_len in
            (CLI_FALSE,
             Some (libc.sprintf buf
                     (lit "Get " ++ libc.cstr param
                        ++ lit ": [value not implemented]" ++ CRLF)))
          else
            (CLI_FALSE,
             Some (libc.strncpy buf CLI_MSG_MISSING_PARAM
                     (Z.to_nat write_buffer_len)))
      | (None, _) =>
          (CLI_FALSE,
           Some (libc.strncpy buf CLI_MSG_MISSING_PARAM
                   (Z.to_nat write_buffer_len)))
      end
  | _, _ => (CLI_FALSE, p_write_buffer)
  end.

(** The built-in descriptors. *)
Definition g_help_command : cli_command_definition_t :=
  {| p_command := lit "help";
     p_help_string := CRLF ++ lit "help:" ++ CRLF
                        ++ lit "Lists all registered commands" ++ CRLF;
     p_command_interpreter := fn_help;
     expected_parameter_count := -1 |}.

Definition g_set_command : cli_command_definition_t :=
  {| p_command := lit "set";
     p_help_string := CRLF ++ lit "set <key> <value>:" ++ CRLF
                        ++ lit "Sets a key-value pair" ++ CRLF;
     p_command_interpreter := fn_set;
     expected_parameter_count := 2 |}.

Definition g_get_command : cli_command_definition_t :=
  {| p_command := lit "get";
     p_help_string := CRLF ++ lit "get <key>:" ++ CRLF
                        ++ lit "Gets a value by key" ++ CRLF;
     p_command_interpreter := fn_get;
     expected_parameter_count := 1 |}.

(** ** Dispatcher *)

(** The delimiter test on [p_command_input[command_length]]. *)
Definition is_delimiter (c : ascii) : bool :=
  Ascii.eqb CHAR_SPACE c || Ascii.eqb CHAR_NULL c
  || Ascii.eqb CHAR_CARRIAGE_RET c || Ascii.eqb CHAR_NEWLINE c.

(** The two nested tests of the search loop for one registry entry. *)
Definition command_matches (p_registered_command p_command_input : mem)
    : bool :=
  let command_length := libc.strlen p_registered_command in
  if is_delimiter (libc.index p_command_input command_length)
  then libc.strncmp p_command_input p_registered_command command_length =? 0
  else false.

(** [for (command_index = 0; command_index < g_command_count;
    command_index++)], from the current [command_index] on.  The result is
    the value [command_index] is left with and [is_processed]. *)
Fixpoint find_command (st : cli_state) (p_command_input : mem) (fuel : nat)
    (command_index : Z) : Z * Z :=
  match fuel with
  | O => (command_index, CLI_PASS)
  | S fuel' =>
      if command_index <? g_command_count st
      then
        if command_matches (p_command (slot st command_index)) p_command_input
        then
          if expected_parameter_count (slot st command_index) >=? 0
          then
            let param_count := cli_get_parameter_count (Some p_command_input) in
            if negb (param_count =? expected_parameter_count (slot st command_index))
            then (command_index, CLI_FALSE)
            else (command_index, CLI_PASS)
          else (command_index, CLI_PASS)
        else find_command st p_command_input fuel' (command_index + 1)
      else (command_index, CLI_PASS)
  end.

Definition set_command_index (st : cli_state) (i : Z) : cli_state :=
  {| g_commands_array := g_commands_array st;
     g_command_count := g_command_count st;
     command_index := i |}.

Section Dispatcher.

(** The state of the application's own handlers, and those handlers: they
    receive the output buffer, its capacity and the line, and return the
    continuation flag and the buffer they leave. *)
Variable W : Type.
Variable user_interpreter : nat -> W -> mem -> Z -> mem -> Z * mem * W.

(** A call through [p_command_interpreter] with non-null buffer and line.
    The handlers of the application work on the buffer and on their own
    state [W]: a handler that writes [g_commands_array] or
    [g_command_count], or that calls back into this module, is not covered.
    A call through a NULL [p_command_interpreter] is undefined in C;
    [fn_null] stands for a handler that returns CLI_FALSE at once, and
    [handlers_set] below is the condition under which the dispatcher makes
    no such call. *)
Definition call_interpreter (f : interpreter) (st : cli_state) (w : W)
    (buf : mem) (write_buffer_len : Z) (line : mem) : Z * mem * W :=
  match f with
  | fn_null => (CLI_FALSE, buf, w)
  | fn_help =>
      let r := cli_help_interpreter st (Some buf) write_buffer_len (Some line) in
      (fst r, default buf (snd r), w)
  | fn_set =>
      let r := cli_set_interpreter (Some buf) write_buffer_len (Some line) in
      (fst r, default buf (snd r), w)
  | fn_get =>
      let r := cli_get_interpreter (Some buf) write_buffer_len (Some line) in
      (fst r, default buf (snd r), w)
  | fn_user k => user_interpreter k w buf write_buffer_len line
  end.

(** [cli_process_command]: the returned flag, the output buffer, the
    globals and the handlers' state after the call. *)
Definition cli_process_command (st : cli_state) (w : W)
    (p_command_input p_write_buffer : option mem) (write_buffer_len : Z)
    : Z * option mem * cli_state * W :=
  match p_command_input, p_write_buffer with
  | Some input, Some buf =>
      let '(index, is_processed) :=
        if 0 =? command_index st
        then find_command st input (Z.to_nat (g_command_count st)) 0
        else (command_index st, CLI_PASS) in
      if CLI_FALSE =? is_processed
      then
        (is_processed,
         Some (libc.strncpy buf CLI_MSG_INCORRECT_PARAMS
                 (Z.to_nat write_buffer_len)),
         set_command_index st index, w)
      else if (CLI_PASS =? is_processed) && (index <? g_command_count st)
      then
        let '(is_processed, buf', w') :=
          call_interpreter (p_command_interpreter (slot st index))
            (set_command_index st index) w buf write_buffer_len input in
        (is_processed, Some buf',
         set_command_index st (if CLI_FALSE =? is_processed then 0 else index),
         w')
      else
        (CLI_FALSE,
         Some (libc.strncpy buf CLI_MSG_NOT_RECOGNIZED
                 (Z.to_nat write_buffer_len)),
         set_command_index st index, w)
  | _, _ => (CLI_FALSE, p_write_buffer, st, w)
  end.

End Dispatcher.

Arguments call_interpreter {W} user_interpreter f st w buf write_buffer_len line.
Arguments cli_process_command {W} user_interpreter st w p_command_input
  p_write_buffer write_buffer_len.

(** ** The registry of [main.c] and sample applications *)

(** [cli_init]: help, set and get are registered in this order. *)
Definition main_state : cli_state :=
  snd (cli_register_command
         (snd (cli_register_command
                 (snd (cli_register_command initial_state (Some g_help_command)))
                 (Some g_set_command)))
         (Some g_get_command)).

(** [main.c] registers no handler of its own. *)
Definition no_user_interpreter (k : nat) (w : unit) (buf : mem) (len : Z)
    (line : mem) : Z * mem * unit :=
  (CLI_FALSE, buf, w).

(** A sample streaming handler: it counts its invocations, writes one
    character per slice and reports more output pending until its third
    slice. *)
Definition slice_interpreter (k : nat) (w : nat) (buf : mem) (len : Z)
    (line : mem) : Z * mem * nat :=
  (if (w <? 2)%nat then CLI_TRUE else CLI_FALSE,
   libc.strncpy buf (lit "." ++ CRLF) (Z.to_nat len),
   if (w <? 2)%nat then S w else O).

Definition stream_command : cli_command_definition_t :=
  {| p_command := lit "stream";
     p_help_string := lit "stream: three slices of output";
     p_command_interpreter := fn_user 0;
     expected_parameter_count := 0 |}.

(** A 512-byte response buffer as [cli_process] owns it, and a short one. *)
Definition response_buffer : mem :=
  replicate (Z.to_nat CLI_WRITE_BUFFER_SIZE) "#"%char.
Definition short_buffer : mem := replicate 16 "#"%char.

(** ** The vocabulary of the properties *)

(** Two windows agree from byte [n] on: nothing at or behind offset [n] was
    changed. *)
Definition same_beyond (n : nat) (m m' : mem) : Prop :=
  forall i, (n <= i)%nat -> libc.index m' i = libc.index m i.

Definition nul_free (s : list ascii) : Prop :=
  Forall (fun c => c <> CHAR_NULL) s.

(** The entry at slot [i] is the first one, in registration order, that the
    line matches. *)
Definition is_first_match (st : cli_state) (input : mem) (i : Z) : Prop :=
  0 <= i < g_command_count st
  /\ command_matches (p_command (slot st i)) input = true
  /\ forall j, 0 <= j < i ->
       command_matches (p_command (slot st j)) input = false.

(** No registered entry matches the line. *)
Definition no_match (st : cli_state) (input : mem) : Prop :=
  forall j, 0 <= j < g_command_count st ->
    command_matches (p_command (slot st j)) input = false.

(** The arity check of the entry at slot [i] lets the line through. *)
Definition arity_ok (st : cli_state) (input : mem) (i : Z) : Prop :=
  expected_parameter_count (slot st i) < 0
  \/ cli_get_parameter_count (Some input) = expected_parameter_count (slot st i).

(** The arity check of the entry at slot [i] rejects the line. *)
Definition arity_mismatch (st : cli_state) (input : mem) (i : Z) : Prop :=
  0 <= expected_parameter_count (slot st i)
  /\ cli_get_parameter_count (Some input) <> expected_parameter_count (slot st i).

(** Step 3 of the dispatch algorithm for the entry at slot [i]: its handler
    is invoked on the buffer, the capacity and the line; its result is the
    result of the call; the cursor goes back to 0 if it reports
    no-more-output and stays at [i] otherwise. *)
Definition invoke_slot {W : Type}
    (user_interpreter : nat -> W -> mem -> Z -> mem -> Z * mem * W)
    (st : cli_state) (w : W) (i : Z) (input buf : mem) (write_buffer_len : Z)
    : Z * option mem * cli_state * W :=
  let '(r, buf', w') :=
    call_interpreter user_interpreter (p_command_interpreter (slot st i))
      (set_command_index st i) w buf write_buffer_len input in
  (r, Some buf', set_command_index st (if CLI_FALSE =? r then 0 else i), w').

(** The call reports no-more-output and leaves the string [msg] in the
    output buffer. *)
Definition answers {W : Type} (r : Z * option mem * cli_state * W)
    (msg : mem) : Prop :=
  r.1.1.1 = CLI_FALSE /\ exists b, r.1.1.2 = Some b /\ libc.cstr b = msg.

(** This call selects the entry at slot [i] and invokes its handler: either
    the search finds it and its arity check passes, or the cursor already
    points at it. *)
Definition selects (st : cli_state) (input : mem) (i : Z) : Prop :=
  (command_index st = 0 /\ is_first_match st input i /\ arity_ok st input i)
  \/ (command_index st = i /\ i <> 0 /\ i < g_command_count st).

(** The next call, whatever line and buffer it is given, invokes the handler
    of slot [i] without searching the registry or checking the arity. *)
Definition resumes_at {W : Type}
    (user_interpreter : nat -> W -> mem -> Z -> mem -> Z * mem * W)
    (st : cli_state) (w : W) (i : Z) : Prop :=
  forall input buf write_buffer_len,
    cli_process_command user_interpreter st w (Some input) (Some buf)
      write_buffer_len
    = invoke_slot user_interpreter st w i input buf write_buffer_len.

(** The continuation protocol for a call that invokes the handler of slot
    [i]: more-output-pending leaves the cursor at [i] and makes the next
    call resume there; no-more-output resets the cursor. *)
Definition continuation_protocol {W : Type}
    (user_interpreter : nat -> W -> mem -> Z -> mem -> Z * mem * W)
    (st : cli_state) (w : W) (i : Z) (input buf : mem) (write_buffer_len : Z)
    : Prop :=
  selects st input i ->
  let r := cli_process_command user_interpreter st w (Some input) (Some buf)
             write_buffer_len in
  (r.1.1.1 <> CLI_FALSE ->
     command_index r.1.2 = i /\ resumes_at user_interpreter r.1.2 r.2 i)
  /\ (r.1.1.1 = CLI_FALSE -> command_index r.1.2 = 0).

(** The error replies of a call that starts from Idle, as the specification
    states them: the verbatim message is in the buffer and the handler has
    not run. *)
Definition error_replies {W : Type}
    (user_interpreter : nat -> W -> mem -> Z -> mem -> Z * mem * W)
    (st : cli_state) (w : W) (input buf : mem) (write_buffer_len : Z)
    : Prop :=
  command_index st = 0 ->
  let r := cli_process_command user_interpreter st w (Some input) (Some buf)
             write_buffer_len in
  (forall i, is_first_match st input i -> arity_mismatch st input i ->
     answers r CLI_MSG_INCORRECT_PARAMS /\ r.2 = w)
  /\ (no_match st input -> answers r CLI_MSG_NOT_RECOGNIZED /\ r.2 = w).

(** What the listing loop of the help handler maintains: nothing at or
    behind the capacity [n] has changed, [current_len] is the length of the
    string in the buffer, and the window has not grown behind the
    capacity. *)
Definition help_inv (n : nat) (buf0 buf : mem) (current_len : Z) : Prop :=
  same_beyond n buf0 buf
  /\ current_len = Z.of_nat (libc.strlen buf)
  /\ (length buf <= Nat.max (length buf0) n)%nat.

(** The reply the specification gives for a line handed to the set
    handler; [fits l] tells whether a parameter of [l] characters passes the
    staging limit. *)
Definition set_reply_text (fits : Z -> bool) (line : mem) : mem :=
  match get_param line 1, get_param line 2 with
  | (Some key, key_len), (Some value, value_len) =>
      if fits key_len && fits value_len
      then lit "Set " ++ take (Z.to_nat key_len) key ++ lit " = "
             ++ take (Z.to_nat value_len) value ++ CRLF
      else CLI_MSG_MISSING_PARAM
  | _, _ => CLI_MSG_MISSING_PARAM
  end.

(** The set handler reports no-more-output and leaves that reply in the
    buffer. *)
Definition set_reply (fits : Z -> bool) (line buf : mem)
    (write_buffer_len : Z) : Prop :=
  let r := cli_set_interpreter (Some buf) write_buffer_len (Some line) in
  fst r = CLI_FALSE
  /\ exists b, snd r = Some b /\ libc.cstr b = set_reply_text fits line.

(** "Does not exceed the 50-character staging limit", as worded, and the
    test the handler makes. *)
Definition within_50 (l : Z) : bool := l <=? 50.
Definition below_50 (l : Z) : bool := l <? 50.

(** ** Sample registries and lines *)

(** The streaming command registered first, in slot 0. *)
Definition stream_first_state : cli_state :=
  snd (cli_register_command initial_state (Some stream_command)).

(** The streaming command registered behind the built-in ones, in slot 3. *)
Definition stream_last_state : cli_state :=
  snd (cli_register_command main_state (Some stream_command)).

(** A second command named "set", registered behind the built-in ones. *)
Definition shadow_state : cli_state :=
  snd (cli_register_command main_state
         (Some {| p_command := lit "set"; p_help_string := [];
                  p_command_interpreter := fn_user 7;
                  expected_parameter_count := -1 |})).

(** "set <50 times k> v" *)
Definition long_key_line : mem :=
  lit "set " ++ replicate 50 "k"%char ++ lit " v".

(** ** main.c *)

Module main_c.

Definition NVIC_ISER0_BASE : Z := 0xE000E100.
Definition USART2_IRQ_NUM : Z := 28.

(** [nvic_enable_irq]: the index of the word of the ISER array that is
    written ([irq_num >> 5u]) and the value stored there
    ([1u << (irq_num & 0x1Fu)], in [uint32_t] arithmetic). *)
Definition nvic_enable_irq (irq_num : Z) : Z * Z :=
  (Z.shiftr irq_num 5, Z.shiftl 1 (Z.land irq_num 0x1F) mod 2 ^ 32).

(** The address of [p_nvic_iser[i]], a [uint32_t] array at
    [NVIC_ISER0_BASE]. *)
Definition nvic_iser_address (i : Z) : Z := (NVIC_ISER0_BASE + 4 * i) mod 2 ^ 32.

End main_c.

(** ** Sequences of calls *)






(** Registering the descriptors of a list one after the other, the results
    ignored as [cli_init] does. *)
Definition register_all (st : cli_state) (ds : list cli_command_definition_t)
    : cli_state :=
  fold_left (fun st d => snd (cli_register_command st (Some d))) ds st.


(** ** More vocabulary *)

(** A word: a non-empty run of characters other than space, NUL, CR, LF. *)
Definition is_word (w : list ascii) : Prop :=
  w <> [] /\ Forall (fun c => is_word_char c = true) w.

(** The end of a line: spaces, then a NUL, CR or LF (or the end of the
    window), then anything. *)
Definition is_line_end (tail : mem) : Prop :=
  exists k rest,
    tail = replicate k CHAR_SPACE ++ rest /\ is_eol (libc.deref rest) = true.

(** Parameters written behind a command word: each one behind [S k]
    spaces. *)
Fixpoint join_params (ps : list (nat * list ascii)) (tail : mem) : mem :=
  match ps with
  | [] => tail
  | (k, w) :: ps' => replicate (S k) CHAR_SPACE ++ w ++ join_params ps' tail
  end.

(** One line of the help listing. *)
Definition help_line (name : mem) : mem :=
  lit "  " ++ libc.cstr name ++ CRLF.

(** The names of the commands in the slots 1 to [g_command_count - 1]. *)
Definition listed_names (st : cli_state) : list mem :=
  map (fun j => p_command (slot st (Z.of_nat j)))
    (seq 1 (Z.to_nat (g_command_count st) - 1)).

(** The reply of the get handler. *)
Definition get_reply_text (line : mem) : mem :=
  match get_param line 1 with
  | (Some key, key_len) =>
      if key_len <? 50
      then lit "Get " ++ take (Z.to_nat key_len) key
             ++ lit ": [value not implemented]" ++ CRLF
      else CLI_MSG_MISSING_PARAM
  | (None, _) => CLI_MSG_MISSING_PARAM
  end.


(** The listing loop of the help handler over the names it visits: one
    call of [help_entry] per name, in order. *)
Fixpoint help_entries (buf : mem) (write_buffer_len current_len : Z)
    (names : list mem) : mem :=
  match names with
  | [] => buf
  | name :: names' =>
      let '(buf', current_len') :=
        help_entry buf write_buffer_len current_len name in
      help_entries buf' write_buffer_len current_len' names'
  end.

(** The full help listing: the header and one line per listed name. *)
Definition help_listing (names : list mem) : mem :=
  CLI_MSG_HELP_HEADER ++ concat (map help_line names).

(** The names a listing of capacity [write_buffer_len] keeps, when
    [text_len] characters are already written: going through the names in
    order, a name is kept when the text so far, its line (the name and four
    more characters) and one more byte come to less than the capacity;
    a name that is not kept takes no room. *)
Fixpoint names_that_fit (write_buffer_len text_len : Z) (names : list mem)
    : list mem :=
  match names with
  | [] => []
  | name :: names' =>
      let line_len := Z.of_nat (length (help_line name)) in
      if text_len + line_len + 1 <? write_buffer_len
      then name :: names_that_fit write_buffer_len (text_len + line_len) names'
      else names_that_fit write_buffer_len text_len names'
  end.

(** The registry of [main.c] with a command of a long name registered
    between set and get. *)
Definition long_name_state : cli_state :=
  register_all initial_state
    [g_help_command; g_set_command;
     {| p_command := lit "configuration"; p_help_string := [];
        p_command_interpreter := fn_user 1;
        expected_parameter_count := -1 |};
     g_get_command].

(* ================================================================== *)

(** * Properties of the tokenizer *)

(** ** Character tests *)

Lemma chars_distinct :
  CHAR_NULL <> CHAR_SPACE /\ CHAR_NULL <> CHAR_CARRIAGE_RET
  /\ CHAR_NULL <> CHAR_NEWLINE /\ CHAR_SPACE <> CHAR_CARRIAGE_RET
  /\ CHAR_SPACE <> CHAR_NEWLINE /\ CHAR_CARRIAGE_RET <> CHAR_NEWLINE.
Proof. repeat split; discriminate. Qed.

Ltac char_cases c :=
  destruct (Ascii.eqb_spec c CHAR_NULL);
  destruct (Ascii.eqb_spec c CHAR_SPACE);
  destruct (Ascii.eqb_spec c CHAR_CARRIAGE_RET);
  destruct (Ascii.eqb_spec c CHAR_NEWLINE);
  subst; try discriminate; try reflexivity.

Lemma eol_test c :
  negb (Ascii.eqb c CHAR_NULL) && negb (Ascii.eqb c CHAR_CARRIAGE_RET)
    && negb (Ascii.eqb c CHAR_NEWLINE) = negb (is_eol c).
Proof. unfold is_eol. char_cases c. Qed.

Lemma word_test c :
  negb (Ascii.eqb c CHAR_NULL) && negb (Ascii.eqb c CHAR_SPACE)
    && negb (Ascii.eqb c CHAR_CARRIAGE_RET) && negb (Ascii.eqb c CHAR_NEWLINE)
  = is_word_char c.
Proof. unfold is_word_char, is_eol, is_space. char_cases c. Qed.

Lemma space_test c :
  negb (Ascii.eqb c CHAR_NULL) && Ascii.eqb c CHAR_SPACE = is_space c.
Proof. unfold is_space. char_cases c. Qed.

Lemma word_char_split c :
  is_word_char c = negb (is_eol c) && negb (is_space c).
Proof. reflexivity. Qed.

Lemma space_not_eol c : is_space c = true -> is_eol c = false.
Proof. unfold is_space, is_eol. char_cases c. Qed.

(** ** cli_get_parameter_count *)

Lemma count_loop_words p : forall c s off,
  (let r := count_loop p c s in
   if snd r =? CLI_PASS then fst r - 1 else fst r)
  = if s =? CLI_PASS
    then c - 1 + Z.of_nat (length (word_spans_from false off p))
    else c + Z.of_nat (length (word_spans_from true off p)).
Proof.
  induction p as [|a p IH]; intros c s off; cbn [count_loop word_spans_from].
  - cbn. destruct (s =? CLI_PASS); lia.
  - rewrite eol_test. destruct (is_eol a) eqn:Ea; cbn [negb].
    + cbn. destruct (s =? CLI_PASS); lia.
    + fold (is_space a). destruct (is_space a) eqn:Sa.
      * destruct (s =? CLI_PASS) eqn:Es; cbn [negb].
        -- pose proof (IH c s (S off)) as H. cbv zeta in H.
           rewrite H, Es. reflexivity.
        -- pose proof (IH (c + 1) CLI_PASS (S off)) as H. cbv zeta in H.
           rewrite H. cbn. lia.
      * pose proof (IH c CLI_FALSE (S off)) as H. cbv zeta in H. rewrite H.
        change (CLI_FALSE =? CLI_PASS) with false. cbv iota.
        destruct (s =? CLI_PASS); cbn [app length]; lia.
Qed.

Lemma parameter_count_words line :
  cli_get_parameter_count (Some line)
  = Z.of_nat (length (word_spans_from true O line)).
Proof.
  unfold cli_get_parameter_count.
  pose proof (count_loop_words line 0 CLI_FALSE O) as H.
  destruct (count_loop line 0 CLI_FALSE) as [c s]. cbn in H. exact H.
Qed.

(** The number of words does not depend on the offset they are numbered from. *)
Lemma word_spans_length_off s : forall b off off',
  length (word_spans_from b off s) = length (word_spans_from b off' s).
Proof.
  induction s as [|a s IH]; intros b off off'; cbn [word_spans_from]; [done|].
  destruct (is_eol a); [done|]. destruct (is_space a); [apply IH|].
  rewrite !length_app, (IH true (S off) (S off')). by destruct b.
Qed.

Lemma word_spans_stop_at_eol pre t post : forall b off,
  is_eol t = true ->
  word_spans_from b off (pre ++ t :: post) = word_spans_from b off pre.
Proof.
  induction pre as [|a pre IH]; intros b off Ht; cbn [app word_spans_from].
  - by rewrite Ht.
  - destruct (is_eol a); [done|]. destruct (is_space a).
    + by apply IH.
    + f_equal; [|by apply IH]. destruct b; [done|]. do 2 f_equal.
      clear IH. cbn [word_len]. destruct (is_word_char a); [|done]. f_equal.
      induction pre as [|x pre IHp]; cbn [app word_len].
      * unfold is_word_char. by rewrite Ht.
      * destruct (is_word_char x); [by f_equal|done].
Qed.

Lemma word_count_collapse pre post : forall b off,
  length (word_spans_from b off (pre ++ CHAR_SPACE :: CHAR_SPACE :: post))
  = length (word_spans_from b off (pre ++ CHAR_SPACE :: post)).
Proof.
  induction pre as [|a pre IH]; intros b off; cbn [app word_spans_from].
  - change (is_eol CHAR_SPACE) with false. change (is_space CHAR_SPACE) with true.
    cbv iota. apply word_spans_length_off.
  - destruct (is_eol a); [done|]. destruct (is_space a); [apply IH|].
    rewrite !length_app, IH. by destruct b.
Qed.

Lemma word_count_trailing l k : forall b off,
  length (word_spans_from b off (l ++ replicate k CHAR_SPACE))
  = length (word_spans_from b off l).
Proof.
  induction l as [|a l IH]; intros b off; cbn [app word_spans_from].
  - revert b off. induction k as [|k IHk]; intros b off; [done|].
    cbn [replicate word_spans_from].
    change (is_eol CHAR_SPACE) with false. change (is_space CHAR_SPACE) with true.
    cbv iota. apply IHk.
  - destruct (is_eol a); [done|]. destruct (is_space a); [apply IH|].
    rewrite !length_app, IH. by destruct b.
Qed.

(** On a line that does not begin with a space the words counted are the
    words after the first. *)
Lemma parameter_words_from_start line :
  libc.deref line <> CHAR_SPACE ->
  parameter_words line = word_spans_from true O line.
Proof.
  unfold parameter_words, line_words. destruct line as [|a l]; [done|].
  cbn [libc.deref hd word_spans_from]. intros Ha.
  destruct (is_eol a); [done|]. unfold is_space.
  destruct (Ascii.eqb_spec a CHAR_SPACE); [done|]. reflexivity.
Qed.

(** On a line that begins with a space the words counted are all the words
    of the line. *)
Lemma line_words_leading_space line :
  libc.deref line = CHAR_SPACE ->
  line_words line = word_spans_from true O line.
Proof.
  unfold line_words. destruct line as [|a l]; [done|].
  cbn [libc.deref hd word_spans_from]. by intros ->.
Qed.

(** The loop invariant behind the final decrement. *)
Lemma count_loop_nonneg p : forall c s,
  0 <= c -> (s = CLI_PASS -> 1 <= c) ->
  0 <= fst (count_loop p c s)
  /\ (snd (count_loop p c s) = CLI_PASS -> 1 <= fst (count_loop p c s)).
Proof.
  induction p as [|a p IH]; intros c s Hc Hs; cbn [count_loop]; [done|].
  destruct (_ && _); [|done].
  destruct (Ascii.eqb a CHAR_SPACE).
  - destruct (s =? CLI_PASS) eqn:Es; cbn [negb].
    + apply IH; [done|]. intros _. apply Hs. lia.
    + apply IH; lia.
  - apply IH; [done|]. discriminate.
Qed.

(** ** cli_get_parameter *)

Lemma skip_word_length p : (length (skip_word p) <= length p)%nat.
Proof.
  induction p as [|a p IH]; cbn [skip_word length]; [done|].
  destruct (_ && _); cbn [length]; lia.
Qed.

Lemma skip_spaces_length p : (length (skip_spaces p) <= length p)%nat.
Proof.
  induction p as [|a p IH]; cbn [skip_spaces length]; [done|].
  destruct (_ && _); cbn [length]; lia.
Qed.

Lemma skip_word_drop p : drop (length p - length (skip_word p)) p = skip_word p.
Proof.
  induction p as [|a p IH]; cbn [skip_word]; [done|].
  destruct (_ && _).
  - pose proof (skip_word_length p). cbn [length].
    replace (S (length p) - length (skip_word p))%nat
      with (S (length p - length (skip_word p))) by lia.
    exact IH.
  - by rewrite Nat.sub_diag.
Qed.

Lemma skip_spaces_drop p :
  drop (length p - length (skip_spaces p)) p = skip_spaces p.
Proof.
  induction p as [|a p IH]; cbn [skip_spaces]; [done|].
  destruct (_ && _).
  - pose proof (skip_spaces_length p). cbn [length].
    replace (S (length p) - length (skip_spaces p))%nat
      with (S (length p - length (skip_spaces p))) by lia.
    exact IH.
  - by rewrite Nat.sub_diag.
Qed.

Lemma skip_word_head p : is_word_char (libc.deref (skip_word p)) = false.
Proof.
  induction p as [|a p IH]; cbn [skip_word]; [done|].
  rewrite word_test. by destruct (is_word_char a) eqn:E.
Qed.

Lemma skip_spaces_head p : is_space (libc.deref (skip_spaces p)) = false.
Proof.
  induction p as [|a p IH]; cbn [skip_spaces]; [done|].
  rewrite space_test. by destruct (is_space a) eqn:E.
Qed.

Lemma word_spans_skip_word p : forall off,
  word_spans_from true off p
  = word_spans_from true (off + (length p - length (skip_word p))) (skip_word p).
Proof.
  induction p as [|a p IH]; intros off; cbn [skip_word]; [done|].
  rewrite word_test. destruct (is_word_char a) eqn:E.
  - cbn [word_spans_from]. unfold is_word_char in E.
    destruct (is_eol a); [done|]. destruct (is_space a); [done|].
    cbn [app]. rewrite (IH (S off)). f_equal.
    pose proof (skip_word_length p). cbn [length]. lia.
  - by rewrite Nat.sub_diag, Nat.add_0_r.
Qed.

Lemma word_spans_skip_spaces p : forall off,
  word_spans_from false off p
  = word_spans_from false (off + (length p - length (skip_spaces p)))
      (skip_spaces p).
Proof.
  induction p as [|a p IH]; intros off; cbn [skip_spaces]; [done|].
  rewrite space_test. destruct (is_space a) eqn:E.
  - cbn [word_spans_from]. rewrite (space_not_eol _ E), E, (IH (S off)).
    f_equal. pose proof (skip_spaces_length p). cbn [length]. lia.
  - by rewrite Nat.sub_diag, Nat.add_0_r.
Qed.

Lemma word_spans_flag p b off :
  is_word_char (libc.deref p) = false ->
  word_spans_from b off p = word_spans_from false off p.
Proof.
  destruct p as [|a p]; [done|]. cbn [libc.deref hd word_spans_from].
  unfold is_word_char. destruct (is_eol a); [done|].
  destruct (is_space a); [done|]. discriminate.
Qed.

Lemma word_spans_at_eol p b off :
  is_eol (libc.deref p) = true -> word_spans_from b off p = [].
Proof.
  destruct p as [|a p]; [done|]. cbn [libc.deref hd word_spans_from].
  by intros ->.
Qed.

Lemma word_spans_at_word p off :
  is_eol (libc.deref p) = false -> is_space (libc.deref p) = false ->
  word_spans_from false off p = (off, word_len p) :: word_spans_from true off p.
Proof.
  destruct p as [|a p]; [done|]. cbn [libc.deref hd word_spans_from].
  by intros -> ->.
Qed.

Lemma measure_word_len p : forall n,
  measure_word p n = n + Z.of_nat (word_len p).
Proof.
  induction p as [|a p IH]; intros n; cbn [measure_word word_len]; [lia|].
  rewrite word_test. destruct (is_word_char a); [rewrite IH|]; lia.
Qed.

Lemma word_len_pos p :
  is_eol (libc.deref p) = false -> is_space (libc.deref p) = false ->
  (0 < word_len p)%nat.
Proof.
  destruct p as [|a p]; [done|]. cbn [libc.deref hd word_len].
  unfold is_word_char. intros -> ->. cbn. lia.
Qed.

Lemma word_spans_offsets s : forall b off i o l,
  word_spans_from b off s !! i = Some (o, l) -> (off <= o)%nat.
Proof.
  induction s as [|a s IH]; intros b off i o l; cbn [word_spans_from]; [done|].
  destruct (is_eol a); [done|]. destruct (is_space a).
  - intros H. apply IH in H. lia.
  - destruct b; cbn [app].
    + intros H. apply IH in H. lia.
    + destruct i as [|i]; cbn.
      * intros [= <- _]. lia.
      * intros H. apply IH in H. lia.
Qed.

(** One iteration of the outer loop, told in words of the line. *)
Lemma next_word p off :
  let p2 := skip_spaces (skip_word p) in
  let adv := (length p - length p2)%nat in
  drop adv p = p2
  /\ word_spans_from true off p
     = if is_eol (libc.deref p2) then []
       else (off + adv, word_len p2)%nat :: word_spans_from true (off + adv) p2.
Proof.
  intros p2 adv. subst p2 adv.
  pose proof (skip_word_length p) as L1.
  pose proof (skip_spaces_length (skip_word p)) as L2.
  split.
  - transitivity (drop (length (skip_word p) - length (skip_spaces (skip_word p)))
                    (drop (length p - length (skip_word p)) p)).
    + rewrite drop_drop. f_equal. lia.
    + rewrite skip_word_drop. apply skip_spaces_drop.
  - rewrite (word_spans_skip_word p off).
    rewrite (word_spans_flag _ true _ (skip_word_head p)).
    rewrite word_spans_skip_spaces.
    replace (off + (length p - length (skip_word p))
             + (length (skip_word p) - length (skip_spaces (skip_word p))))%nat
      with (off + (length p - length (skip_spaces (skip_word p))))%nat by lia.
    destruct (is_eol (libc.deref (skip_spaces (skip_word p)))) eqn:E.
    + by apply word_spans_at_eol.
    + apply word_spans_at_word; [done|apply skip_spaces_head].
Qed.

Lemma param_loop_words fuel : forall p off found wanted,
  found < wanted -> wanted - found <= Z.of_nat fuel ->
  param_loop fuel p found wanted 0
  = match word_spans_from true off p !! Z.to_nat (wanted - found - 1) with
    | Some (o, l) => (Some (drop (o - off) p), Z.of_nat l)
    | None => (None, 0)
    end.
Proof.
  induction fuel as [|fuel IH]; intros p off found wanted Hlt Hfuel; [lia|].
  cbn [param_loop]. cbv zeta.
  destruct (Z.ltb_spec found wanted) as [_|]; [|lia].
  destruct (next_word p off) as [Hdrop Hspans]. rewrite Hspans.
  set (p2 := skip_spaces (skip_word p)) in *.
  set (adv := (length p - length p2)%nat) in *.
  rewrite eol_test.
  destruct (is_eol (libc.deref p2)) eqn:E; cbn [negb]; [done|].
  destruct (Z.eqb_spec (found + 1) wanted) as [Heq|Hne].
  - replace (Z.to_nat (wanted - found - 1)) with O by lia. cbn [lookup list_lookup].
    rewrite measure_word_len.
    pose proof (word_len_pos p2 E (skip_spaces_head (skip_word p))).
    destruct (Z.eqb_spec 0 (0 + Z.of_nat (word_len p2))); [lia|].
    replace (off + adv - off)%nat with adv by lia. rewrite Hdrop.
    reflexivity.
  - replace (Z.to_nat (wanted - found - 1))
      with (S (Z.to_nat (wanted - (found + 1) - 1))) by lia.
    cbn [lookup list_lookup].
    rewrite (IH p2 (off + adv)%nat (found + 1) wanted) by lia.
    destruct (word_spans_from true (off + adv) p2
                !! Z.to_nat (wanted - (found + 1) - 1)) as [[o l]|] eqn:Hl; [|done].
    apply word_spans_offsets in Hl. rewrite <- Hdrop, drop_drop.
    do 3 f_equal. lia.
Qed.

Lemma get_parameter_words line n :
  cli_get_parameter (Some line) n (Some 0)
  = match (if 0 <? n then word_spans_from true O line !! Z.to_nat (n - 1)
           else None) with
    | Some (o, l) => (Some (drop o line), Some (Z.of_nat l))
    | None => (None, Some 0)
    end.
Proof.
  unfold cli_get_parameter. destruct (Z.ltb_spec 0 n) as [Hn|Hn].
  - rewrite (param_loop_words (Z.to_nat n) line O 0 n) by lia.
    replace (n - 0 - 1) with (n - 1) by lia.
    destruct (_ !! _) as [[o l]|]; [|done]. by rewrite Nat.sub_0_r.
  - replace (Z.to_nat n) with O by lia. reflexivity.
Qed.

(** The counters of the tokenizer stay below the length of the line, so
    the [int32_t] increments of the source never overflow. *)
Lemma word_spans_length_le s : forall b off,
  (length (word_spans_from b off s) <= length s)%nat.
Proof.
  induction s as [|a s IH]; intros b off; cbn [word_spans_from length]; [done|].
  destruct (is_eol a); [cbn; lia|].
  destruct (is_space a); [specialize (IH false (S off)); lia|].
  rewrite length_app. specialize (IH true (S off)). destruct b; cbn; lia.
Qed.

Lemma parameter_count_bounded line :
  0 <= cli_get_parameter_count (Some line) <= Z.of_nat (length line).
Proof.
  rewrite parameter_count_words.
  pose proof (word_spans_length_le line true O). lia.
Qed.

Lemma line_text_split line :
  line = line_text line
  \/ exists t post, is_eol t = true /\ line = line_text line ++ t :: post.
Proof.
  induction line as [|a line IH]; cbn [line_text]; [by left|].
  destruct (is_eol a) eqn:E.
  - right. by exists a, line.
  - destruct IH as [IH|(t & post & Ht & IH)].
    + left. by rewrite <- IH.
    + right. exists t, post. split; [done|]. cbn [app]. by rewrite <- IH.
Qed.

Lemma parameter_count_line_text line :
  cli_get_parameter_count (Some line)
  = cli_get_parameter_count (Some (line_text line)).
Proof.
  rewrite !parameter_count_words.
  destruct (line_text_split line) as [<-|(t & post & Ht & H)]; [done|].
  rewrite H at 1. by rewrite word_spans_stop_at_eol.
Qed.

Lemma param_loop_some fuel : forall p found wanted q n,
  param_loop fuel p found wanted 0 = (Some q, n) ->
  n = Z.of_nat (word_len q) /\ (0 < word_len q)%nat.
Proof.
  induction fuel as [|fuel IH]; intros p found wanted q n; cbn [param_loop];
    [done|].
  destruct (found <? wanted); [|done]. cbv zeta. rewrite eol_test.
  destruct (is_eol (libc.deref (skip_spaces (skip_word p)))) eqn:E;
    cbn [negb]; [done|].
  destruct (found + 1 =? wanted); [|apply IH].
  rewrite measure_word_len.
  pose proof (word_len_pos _ E (skip_spaces_head (skip_word p))).
  destruct (Z.eqb_spec 0 (0 + Z.of_nat (word_len (skip_spaces (skip_word p)))));
    [lia|].
  intros [= <- <-]. split; [lia|done].
Qed.

Lemma get_param_some line k q n :
  get_param line k = (Some q, n) ->
  n = Z.of_nat (word_len q) /\ (0 < word_len q)%nat.
Proof.
  unfold get_param, cli_get_parameter.
  destruct (param_loop _ _ _ _ _) as [r l] eqn:E. cbn. intros [= -> ->].
  by apply param_loop_some in E.
Qed.

Lemma word_len_le q : (word_len q <= length q)%nat.
Proof.
  induction q as [|c q IH]; cbn [word_len length]; [done|].
  destruct (is_word_char c); lia.
Qed.

Lemma word_char_not_nul c : is_word_char c = true -> c <> CHAR_NULL.
Proof. by intros H ->. Qed.

Lemma word_nul_free q : nul_free (take (word_len q) q).
Proof.
  induction q as [|c q IH]; cbn [word_len]; [constructor|].
  destruct (is_word_char c) eqn:E; cbn [take]; constructor; [|done].
  by apply word_char_not_nul.
Qed.

Lemma cstr_word q : exists rest, libc.cstr q = take (word_len q) q ++ rest.
Proof.
  induction q as [|c q [rest IH]]; cbn [word_len libc.cstr]; [by exists []|].
  destruct (is_word_char c) eqn:E; [|by eexists].
  destruct (Ascii.eqb_spec c CHAR_NULL) as [->|_]; [done|].
  exists rest. cbn [take app]. by rewrite IH.
Qed.

Lemma word_len_chars q : Forall (fun c => is_word_char c = true) (take (word_len q) q).
Proof.
  induction q as [|c q IH]; cbn [word_len]; [constructor|].
  destruct (is_word_char c) eqn:E; cbn [take]; by constructor.
Qed.

Lemma word_len_end q : is_word_char (libc.deref (drop (word_len q) q)) = false.
Proof.
  induction q as [|c q IH]; cbn [word_len]; [done|].
  destruct (is_word_char c) eqn:E; cbn [drop]; done.
Qed.

(** What [cli_get_parameter] returns, when it returns a parameter, is a
    whole word: a non-empty run of characters other than space, NUL, CR and
    LF that ends in front of one of those. *)
Lemma get_parameter_word line n v p l :
  cli_get_parameter (Some line) n (Some v) = (Some p, Some l) ->
  0 < l
  /\ Forall (fun c => is_word_char c = true) (take (Z.to_nat l) p)
  /\ is_word_char (libc.deref (drop (Z.to_nat l) p)) = false.
Proof.
  unfold cli_get_parameter.
  destruct (param_loop _ _ _ _ _) as [r k] eqn:E. intros [= -> ->].
  apply param_loop_some in E as [-> Hpos]. rewrite Nat2Z.id.
  split; [lia|]. split; [apply word_len_chars|apply word_len_end].
Qed.

(** ** The claims about the tokenizer *)

(** C7 (amended).  [cli_get_parameter_count] returns the number of
    space-delimited words after the first (command) word for every line that
    does not begin with a space; on a line that begins with a space it
    counts the first word as well, and on every line it counts the words
    that follow a space; it scans only up to the first NUL, CR or LF, counts
    a run of consecutive spaces as one delimiter and does not count an empty
    word behind trailing spaces; "cmd a b" has 2 parameters, "cmd" and
    "cmd   " have none. *)
Theorem parameter_count_spec :
  (forall line, libc.deref line <> CHAR_SPACE -> counts_parameter_words line)
  /\ (forall line, libc.deref line = CHAR_SPACE -> counts_line_words line)
  /\ (forall line,
        cli_get_parameter_count (Some line)
        = Z.of_nat (length (words_after_space line)))
  /\ (forall line,
        cli_get_parameter_count (Some line)
        = cli_get_parameter_count (Some (line_text line)))
  /\ (forall pre t post, is_eol t = true ->
        cli_get_parameter_count (Some (pre ++ t :: post))
        = cli_get_parameter_count (Some pre))
  /\ (forall pre post,
        cli_get_parameter_count (Some (pre ++ CHAR_SPACE :: CHAR_SPACE :: post))
        = cli_get_parameter_count (Some (pre ++ CHAR_SPACE :: post)))
  /\ (forall line k,
        cli_get_parameter_count (Some (line ++ replicate k CHAR_SPACE))
        = cli_get_parameter_count (Some line))
  /\ cli_get_parameter_count (Some (lit "cmd a b")) = 2
  /\ cli_get_parameter_count (Some (lit "cmd")) = 0
  /\ cli_get_parameter_count (Some (lit "cmd   ")) = 0.
Proof.
  repeat split.
  - intros line Hline. unfold counts_parameter_words.
    by rewrite parameter_count_words, parameter_words_from_start.
  - intros line Hline. unfold counts_line_words.
    by rewrite parameter_count_words, line_words_leading_space.
  - apply parameter_count_words.
  - apply parameter_count_line_text.
  - intros pre t post Ht.
    by rewrite !parameter_count_words, word_spans_stop_at_eol.
  - intros pre post. by rewrite !parameter_count_words, word_count_collapse.
  - intros line k. by rewrite !parameter_count_words, word_count_trailing.
Qed.

Lemma parameter_count_spec_witness :
  (libc.deref (lit "get key") <> CHAR_SPACE
   /\ counts_parameter_words (lit "get key"))
  /\ (libc.deref (lit " get key") = CHAR_SPACE
      /\ counts_line_words (lit " get key")).
Proof.
  split; (split; [done|]).
  - apply (proj1 parameter_count_spec (lit "get key")). discriminate.
  - apply (proj1 (proj2 parameter_count_spec) (lit " get key")). reflexivity.
Defined.

(** C7 as stated fails on a line with a leading space: " a" has one word
    and none after it, and the function returns 1. *)
Lemma parameter_count_leading_space :
  ~ counts_parameter_words (lit " a").
Proof. unfold counts_parameter_words. vm_compute. discriminate. Qed.

(** C10.  [cli_get_parameter_count] never returns a negative value: when
    the loop ends behind a space the count has been incremented for that
    run of spaces, so the final decrement leaves at least 0; a NULL line
    gives 0. *)
Theorem parameter_count_nonneg :
  (forall line, 0 <= cli_get_parameter_count (Some line))
  /\ cli_get_parameter_count None = 0
  /\ (forall line,
        (snd (count_loop line 0 CLI_FALSE) =? CLI_PASS)
        && (fst (count_loop line 0 CLI_FALSE) <? 1) = false).
Proof.
  split; [|split; [reflexivity|]].
  - intros line. rewrite parameter_count_words. lia.
  - intros line.
    destruct (count_loop_nonneg line 0 CLI_FALSE) as [_ H]; [lia|discriminate|].
    destruct (Z.eqb_spec (snd (count_loop line 0 CLI_FALSE)) CLI_PASS) as [E|];
      [|done].
    apply H in E. cbn [andb]. lia.
Qed.

(** C8 (amended).  For every line that does not begin with a space,
    [cli_get_parameter] with the 1-based index [n] returns the pointer to
    the start of the [n]-th word after the command token and that word's
    length, and NULL with length 0 when the line ends (NUL, CR, LF) before
    [n] such words or when [n] is 0 or negative; on a line that begins with
    a space index [n] is the [n]-th word of the line, the first included,
    and on every line it is the [n]-th of the words that follow a space; a
    parameter it returns is always a whole non-empty word; on
    "set key value" index 1 is "key" (length 3), index 2 is "value"
    (length 5), index 3 is absent. *)
Theorem get_parameter_spec :
  (forall line n, libc.deref line <> CHAR_SPACE -> gets_parameter_word line n)
  /\ (forall line n, libc.deref line = CHAR_SPACE -> gets_line_word line n)
  /\ (forall line n v,
        cli_get_parameter (Some line) n (Some v)
        = nth_word_of (words_after_space line) line n)
  /\ (forall line n v, n <= 0 ->
        cli_get_parameter (Some line) n (Some v) = (None, Some 0))
  /\ (forall line n v p l,
        cli_get_parameter (Some line) n (Some v) = (Some p, Some l) ->
        0 < l
        /\ Forall (fun c => is_word_char c = true) (take (Z.to_nat l) p)
        /\ is_word_char (libc.deref (drop (Z.to_nat l) p)) = false)
  /\ cli_get_parameter (Some (lit "set key value")) 1 (Some 0)
     = (Some (lit "key value"), Some 3)
  /\ cli_get_parameter (Some (lit "set key value")) 2 (Some 0)
     = (Some (lit "value"), Some 5)
  /\ cli_get_parameter (Some (lit "set key value")) 3 (Some 0)
     = (None, Some 0).
Proof.
  split; [|split; [|split; [|split; [|split; [|by repeat split]]]]].
  - intros line n Hline v. unfold nth_parameter_word.
    rewrite parameter_words_from_start by done.
    apply get_parameter_words.
  - intros line n Hline v. rewrite line_words_leading_space by done.
    apply get_parameter_words.
  - intros line n v. apply get_parameter_words.
  - intros line n v Hn. change (cli_get_parameter (Some line) n (Some v))
      with (cli_get_parameter (Some line) n (Some 0)).
    rewrite get_parameter_words. by destruct (Z.ltb_spec 0 n); [lia|].
  - apply get_parameter_word.
Qed.

Lemma get_parameter_spec_witness :
  (libc.deref (lit "get key") <> CHAR_SPACE
   /\ gets_parameter_word (lit "get key") 1)
  /\ (libc.deref (lit " get key") = CHAR_SPACE
      /\ gets_line_word (lit " get key") 1).
Proof.
  split; (split; [done|]).
  - apply (proj1 get_parameter_spec (lit "get key") 1). discriminate.
  - apply (proj1 (proj2 get_parameter_spec) (lit " get key") 1). reflexivity.
Defined.

(** C8 as stated fails on a line with a leading space: on " set key" the
    first word after the command token is "key", and index 1 returns the
    command token "set" itself. *)
Lemma get_parameter_leading_space :
  ~ gets_parameter_word (lit " set key") 1.
Proof. intros H. specialize (H 0). vm_compute in H. discriminate. Qed.

(** * Properties of the C library model *)

Module libc_facts.
Import libc.

Lemma index_app_l (a b : mem) i :
  (i < length a)%nat -> index (a ++ b) i = index a i.
Proof. intros H. unfold index. by rewrite app_nth1. Qed.

Lemma index_app_r (a b : mem) i :
  (length a <= i)%nat -> index (a ++ b) i = index b (i - length a).
Proof. intros H. unfold index. by rewrite app_nth2. Qed.

Lemma index_take (m : mem) n i : (i < n)%nat -> index (take n m) i = index m i.
Proof.
  unfold index. revert n i. induction m as [|a m IH]; intros [|n] [|i] H;
    cbn; try done; try lia. apply IH. lia.
Qed.

Lemma index_drop (m : mem) n i : index (drop n m) i = index m (n + i).
Proof.
  unfold index. revert n. induction m as [|a m IH]; intros [|n]; cbn; try done.
  all: by destruct i.
Qed.

Lemma index_replicate n i : index (replicate n CHAR_NULL) i = CHAR_NULL.
Proof.
  unfold index. revert i. induction n as [|n IH]; intros [|i]; cbn; try done.
Qed.

Lemma index_beyond (m : mem) i : (length m <= i)%nat -> index m i = CHAR_NULL.
Proof. intros H. unfold index. by apply nth_overflow. Qed.

(** A store changes the bytes it covers and nothing else. *)
Lemma index_store m off bytes i :
  index (store m off bytes) i
  = if (off <=? i)%nat && (i <? off + length bytes)%nat
    then index bytes (i - off) else index m i.
Proof.
  unfold store.
  destruct (Nat.leb_spec off i) as [Hoi|Hoi]; cbn [andb].
  - assert (length (take off m ++ replicate (off - length m) CHAR_NULL) = off)
      as Hlen by (rewrite length_app, length_take, length_replicate; lia).
    rewrite app_assoc, index_app_r by lia. rewrite Hlen.
    destruct (Nat.ltb_spec i (off + length bytes)) as [Hib|Hib].
    + by rewrite index_app_l by lia.
    + rewrite index_app_r, index_drop by lia. f_equal. lia.
  - destruct (Nat.lt_ge_cases i (length m)).
    + rewrite index_app_l by (rewrite length_take; lia).
      by apply index_take.
    + rewrite index_app_r by (rewrite length_take; lia).
      rewrite length_take, index_app_l by (rewrite length_replicate; lia).
      by rewrite index_replicate, index_beyond.
Qed.

Lemma same_beyond_refl n m : same_beyond n m m.
Proof. by intros i _. Qed.

Lemma same_beyond_trans n m1 m2 m3 :
  same_beyond n m1 m2 -> same_beyond n m2 m3 -> same_beyond n m1 m3.
Proof. intros H1 H2 i Hi. by rewrite H2, H1. Qed.

Lemma store_within n m off bytes :
  (off + length bytes <= n)%nat -> same_beyond n m (store m off bytes).
Proof.
  intros H i Hi. rewrite index_store.
  destruct (Nat.ltb_spec i (off + length bytes)); [lia|].
  by rewrite andb_false_r.
Qed.

Lemma memset0_within m n : same_beyond n m (memset0 m n).
Proof. apply store_within. rewrite length_replicate. lia. Qed.

Lemma strncpy_within dst src n : same_beyond n dst (strncpy dst src n).
Proof. apply store_within. rewrite length_take. lia. Qed.

(** Strings *)

Lemma cstr_nul_free p : nul_free (cstr p).
Proof.
  induction p as [|a p IH]; cbn [cstr]; [constructor|].
  destruct (Ascii.eqb_spec a CHAR_NULL); by constructor.
Qed.

Lemma cstr_app s rest : nul_free s -> cstr (s ++ rest) = s ++ cstr rest.
Proof.
  induction 1 as [|a s Ha _ IH]; cbn [app cstr]; [done|].
  destruct (Ascii.eqb_spec a CHAR_NULL); [done|]. by rewrite IH.
Qed.

Lemma cstr_terminated s rest : nul_free s -> cstr (s ++ CHAR_NULL :: rest) = s.
Proof. intros H. rewrite cstr_app by done. cbn. apply app_nil_r. Qed.

Lemma cstr_id s : nul_free s -> cstr s = s.
Proof.
  intros H. rewrite <- (app_nil_r s) at 1. rewrite cstr_app by done.
  apply app_nil_r.
Qed.

Lemma cstr_prefix p : take (strlen p) p = cstr p.
Proof.
  unfold strlen. induction p as [|a p IH]; cbn [cstr]; [done|].
  destruct (Ascii.eqb a CHAR_NULL); cbn; [done|]. by rewrite IH.
Qed.

Lemma strlen_le p : (strlen p <= length p)%nat.
Proof.
  unfold strlen. induction p as [|a p IH]; cbn [cstr]; [done|].
  destruct (Ascii.eqb a CHAR_NULL); cbn; lia.
Qed.

Lemma store_0 m bytes : store m O bytes = bytes ++ drop (length bytes) m.
Proof. unfold store. by rewrite take_0. Qed.

(** What [strncpy] leaves as the string at [dst] when the source fits
    with its terminator. *)
Lemma cstr_strncpy dst src n :
  (strlen src < n)%nat -> cstr (strncpy dst src n) = cstr src.
Proof.
  intros H. unfold strncpy, strlen in *. rewrite store_0.
  rewrite take_app_ge by lia.
  rewrite take_replicate, <- app_assoc.
  replace ((n - length (cstr src)) `min` n)%nat
    with (S (n - length (cstr src) - 1)) by lia.
  cbn [replicate app]. apply cstr_terminated, cstr_nul_free.
Qed.

Lemma cstr_sprintf dst text : nul_free text -> cstr (sprintf dst text) = text.
Proof.
  intros H. unfold sprintf. rewrite store_0, <- app_assoc.
  by apply cstr_terminated.
Qed.

End libc_facts.

Import libc_facts.

(** * Properties of the registry *)

Lemma slot_lookup st i d :
  g_commands_array st !! Z.to_nat i = Some d -> slot st i = d.
Proof. unfold slot. by intros ->. Qed.

(** C9.  For a registry with 0 <= count <= CLI_MAX_COMMANDS,
    [cli_register_command] fails exactly when the descriptor pointer is NULL
    or the registry is at capacity, and then changes neither the array nor
    the count; on success the descriptor is stored in the next free slot,
    the count grows by one and every other slot keeps its entry. *)
Theorem register_command_spec st p_command_to_register :
  registry_ok st ->
  let r := cli_register_command st p_command_to_register in
  (fst r = CLI_FALSE
   <-> p_command_to_register = None \/ g_command_count st = CLI_MAX_COMMANDS)
  /\ (fst r = CLI_FALSE -> snd r = st)
  /\ (fst r <> CLI_FALSE ->
      fst r = CLI_TRUE
      /\ (exists d, p_command_to_register = Some d
            /\ g_commands_array (snd r) !! Z.to_nat (g_command_count st) = Some d)
      /\ g_command_count (snd r) = g_command_count st + 1
      /\ (forall j, j <> Z.to_nat (g_command_count st) ->
            g_commands_array (snd r) !! j = g_commands_array st !! j)
      /\ command_index (snd r) = command_index st
      /\ registry_ok (snd r)).
Proof.
  intros [Hlen Hcount]. unfold cli_register_command, CLI_MAX_COMMANDS in *.
  destruct p_command_to_register as [d|]; cbn [fst snd].
  - rewrite Z.mod_small by lia.
    destruct (Z.ltb_spec (g_command_count st) 10) as [Hlt|Hge]; cbn [fst snd].
    + split; [|split]; try (unfold CLI_TRUE, CLI_FALSE; intros; lia).
      * split; [discriminate|]. intros [|]; [done|lia].
      * intros _. split; [done|]. split; [|split; [done|split; [|split; [done|]]]].
        -- exists d. split; [done|]. apply list_lookup_insert_eq. lia.
        -- intros j Hj. by apply list_lookup_insert_ne.
        -- unfold registry_ok, CLI_MAX_COMMANDS. cbn.
           split; [by rewrite length_insert|lia].
    + split; [|split]; try done.
      split; [intros _; right; lia|done].
  - split; [|split]; try done. split; [by left|done].
Qed.

Lemma main_state_ok : registry_ok main_state.
Proof. split; [reflexivity|]. by vm_compute. Qed.

Lemma register_command_spec_witness :
  registry_ok main_state
  /\ fst (cli_register_command main_state (Some stream_command)) = CLI_TRUE
  /\ g_command_count (snd (cli_register_command main_state (Some stream_command)))
     = 4.
Proof.
  split; [exact main_state_ok|].
  destruct (register_command_spec main_state (Some stream_command)
              main_state_ok) as (_ & _ & H).
  destruct H as (Htrue & _ & Hcount & _); [discriminate|].
  split; [exact Htrue|exact Hcount].
Defined.

(** * Properties of the dispatcher *)

(** ** Matching one entry *)

Lemma deref_cons_inv (a : mem) c :
  libc.deref a = c -> c <> CHAR_NULL -> exists a', a = c :: a'.
Proof. destruct a as [|x a]; cbn; [congruence|]. intros ->. eauto. Qed.

Lemma nat_of_ascii_diff a b :
  a <> b -> Z.of_nat (nat_of_ascii a) - Z.of_nat (nat_of_ascii b) <> 0.
Proof.
  intros Hab H. apply Hab.
  rewrite <- (ascii_nat_embedding a), <- (ascii_nat_embedding b).
  f_equal. lia.
Qed.

(** [strncmp] over the length of [b] finds no difference exactly when the
    string at [b] is a prefix of the window [a]. *)
Lemma strncmp_prefix b : forall a,
  libc.strncmp a b (libc.strlen b) = 0 <-> exists rest, a = libc.cstr b ++ rest.
Proof.
  unfold libc.strlen.
  induction b as [|c b IH]; intros a; cbn [libc.cstr].
  - cbn. split; [eauto|done].
  - destruct (Ascii.eqb_spec c CHAR_NULL) as [->|Hc]; cbn [length libc.strncmp].
    + split; [eauto|done].
    + cbn [libc.deref hd tl].
      destruct (Ascii.eqb_spec (libc.deref a) c) as [Ha|Ha].
      * destruct (deref_cons_inv a c Ha Hc) as [a' ->]. cbn [libc.deref hd tl].
        destruct (Ascii.eqb_spec c CHAR_NULL); [done|].
        rewrite IH. split.
        -- intros [rest ->]. by exists rest.
        -- intros [rest [= ->]]. by exists rest.
      * split.
        -- intros H. by apply nat_of_ascii_diff in H.
        -- intros [rest ->]. by cbn in Ha.
Qed.

Lemma index_after_prefix (s rest : mem) :
  libc.index (s ++ rest) (length s) = libc.deref rest.
Proof.
  unfold libc.index, libc.deref. rewrite app_nth2 by lia.
  rewrite Nat.sub_diag. by destruct rest.
Qed.

Lemma command_matches_spec name line :
  command_matches name line = true
  <-> exists rest, line = libc.cstr name ++ rest
                   /\ is_delimiter (libc.deref rest) = true.
Proof.
  unfold command_matches. split.
  - destruct (is_delimiter _) eqn:Hd; [|done]. intros H.
    apply Z.eqb_eq, strncmp_prefix in H. destruct H as [rest ->].
    exists rest. split; [done|].
    unfold libc.strlen in Hd. by rewrite index_after_prefix in Hd.
  - intros [rest [-> Hd]]. unfold libc.strlen.
    rewrite index_after_prefix, Hd. apply Z.eqb_eq, strncmp_prefix. eauto.
Qed.

Lemma is_delimiter_spec c :
  is_delimiter c = true
  <-> c = CHAR_SPACE \/ c = CHAR_NULL \/ c = CHAR_CARRIAGE_RET
      \/ c = CHAR_NEWLINE.
Proof.
  unfold is_delimiter. rewrite !orb_true_iff, !Ascii.eqb_eq. intuition congruence.
Qed.

(** ** The search loop *)

Lemma find_command_first st input i : forall fuel k,
  is_first_match st input i -> 0 <= k <= i ->
  g_command_count st - k <= Z.of_nat fuel ->
  find_command st input fuel k
  = (i, if (expected_parameter_count (slot st i) >=? 0)
           && negb (cli_get_parameter_count (Some input)
                    =? expected_parameter_count (slot st i))
        then CLI_FALSE else CLI_PASS).
Proof.
  intros fuel k (Hi & Hm & Hfirst).
  induction fuel as [|fuel IH] in k |- *; intros Hk Hfuel; [lia|].
  cbn [find_command].
  destruct (Z.ltb_spec k (g_command_count st)); [|lia].
  destruct (Z.eq_dec k i) as [->|Hne].
  - rewrite Hm. destruct (_ >=? 0); cbn [andb]; [|done].
    by destruct (negb _).
  - rewrite Hfirst by lia. apply IH; lia.
Qed.

Lemma find_command_none st input : forall fuel k,
  no_match st input -> 0 <= k ->
  g_command_count st - k <= Z.of_nat fuel ->
  find_command st input fuel k = (Z.max k (g_command_count st), CLI_PASS).
Proof.
  intros fuel k Hnone.
  induction fuel as [|fuel IH] in k |- *; intros Hk Hfuel; cbn [find_command].
  - f_equal. lia.
  - destruct (Z.ltb_spec k (g_command_count st)); [|f_equal; lia].
    rewrite Hnone by lia. rewrite IH by lia. f_equal. lia.
Qed.

(** ** One call of the dispatcher, case by case *)

Section Calls.
Context {W : Type}.
Variable user_interpreter : nat -> W -> mem -> Z -> mem -> Z * mem * W.
Variables (st : cli_state) (w : W) (input buf : mem) (write_buffer_len : Z).

Lemma process_arity_mismatch i :
  command_index st = 0 -> is_first_match st input i ->
  arity_mismatch st input i ->
  cli_process_command user_interpreter st w (Some input) (Some buf)
    write_buffer_len
  = (CLI_FALSE,
     Some (libc.strncpy buf CLI_MSG_INCORRECT_PARAMS (Z.to_nat write_buffer_len)),
     set_command_index st i, w).
Proof using Type.
  intros Hidle Hfirst [Hexp Hne]. unfold cli_process_command.
  rewrite Hidle. cbn [Z.eqb].
  rewrite (find_command_first st input i _ 0 Hfirst)
    by (destruct Hfirst; lia).
  destruct (Z.geb_spec (expected_parameter_count (slot st i)) 0); [|lia].
  destruct (Z.eqb_spec (cli_get_parameter_count (Some input))
              (expected_parameter_count (slot st i))); [done|].
  reflexivity.
Qed.

Lemma process_first_match i :
  command_index st = 0 -> is_first_match st input i -> arity_ok st input i ->
  cli_process_command user_interpreter st w (Some input) (Some buf)
    write_buffer_len
  = invoke_slot user_interpreter st w i input buf write_buffer_len.
Proof using Type.
  intros Hidle Hfirst Hok. unfold cli_process_command, invoke_slot.
  rewrite Hidle. cbn [Z.eqb].
  rewrite (find_command_first st input i _ 0 Hfirst)
    by (destruct Hfirst; lia).
  assert ((expected_parameter_count (slot st i) >=? 0)
          && negb (cli_get_parameter_count (Some input)
                   =? expected_parameter_count (slot st i)) = false) as ->.
  { destruct Hok as [Hneg| ->].
    - by destruct (Z.geb_spec (expected_parameter_count (slot st i)) 0); [lia|].
    - by rewrite Z.eqb_refl, andb_false_r. }
  cbn [Z.eqb CLI_FALSE CLI_PASS andb].
  destruct Hfirst as [Hi _].
  destruct (Z.ltb_spec i (g_command_count st)); [|lia]. reflexivity.
Qed.

Lemma process_no_match :
  command_index st = 0 -> no_match st input ->
  cli_process_command user_interpreter st w (Some input) (Some buf)
    write_buffer_len
  = (CLI_FALSE,
     Some (libc.strncpy buf CLI_MSG_NOT_RECOGNIZED (Z.to_nat write_buffer_len)),
     set_command_index st (Z.max 0 (g_command_count st)), w).
Proof using Type.
  intros Hidle Hnone. unfold cli_process_command.
  rewrite Hidle. cbn [Z.eqb].
  rewrite (find_command_none st input _ 0 Hnone) by lia.
  cbn [Z.eqb CLI_FALSE CLI_PASS andb].
  destruct (Z.ltb_spec (Z.max 0 (g_command_count st)) (g_command_count st));
    [lia|]. reflexivity.
Qed.

Lemma process_continuing :
  command_index st <> 0 -> command_index st < g_command_count st ->
  cli_process_command user_interpreter st w (Some input) (Some buf)
    write_buffer_len
  = invoke_slot user_interpreter st w (command_index st) input buf
      write_buffer_len.
Proof using Type.
  intros Hne Hlt. unfold cli_process_command, invoke_slot.
  destruct (Z.eqb_spec 0 (command_index st)); [lia|].
  cbn [Z.eqb CLI_FALSE CLI_PASS andb].
  destruct (Z.ltb_spec (command_index st) (g_command_count st)); [|lia].
  reflexivity.
Qed.

Lemma process_stale :
  command_index st <> 0 -> g_command_count st <= command_index st ->
  cli_process_command user_interpreter st w (Some input) (Some buf)
    write_buffer_len
  = (CLI_FALSE,
     Some (libc.strncpy buf CLI_MSG_NOT_RECOGNIZED (Z.to_nat write_buffer_len)),
     set_command_index st (command_index st), w).
Proof using Type.
  intros Hne Hge. unfold cli_process_command.
  destruct (Z.eqb_spec 0 (command_index st)); [lia|].
  cbn [Z.eqb CLI_FALSE CLI_PASS andb].
  destruct (Z.ltb_spec (command_index st) (g_command_count st)); [lia|].
  reflexivity.
Qed.

End Calls.




(** The messages of the dispatcher itself stay within the capacity. *)
Lemma dispatch_errors_within_capacity (W : Type) user_interpreter st (w : W)
    input buf write_buffer_len :
  command_index st = 0 ->
  (exists i, is_first_match st input i /\ arity_mismatch st input i)
  \/ no_match st input ->
  exists b,
    (cli_process_command user_interpreter st w (Some input) (Some buf)
       write_buffer_len).1.1.2 = Some b
    /\ same_beyond (Z.to_nat write_buffer_len) buf b.
Proof.
  intros Hidle [(i & Hfirst & Hbad)|Hnone].
  - rewrite (process_arity_mismatch user_interpreter st w input buf
               write_buffer_len i Hidle Hfirst Hbad).
    eexists. split; [done|]. apply strncpy_within.
  - rewrite (process_no_match user_interpreter st w input buf
               write_buffer_len Hidle Hnone).
    eexists. split; [done|]. apply strncpy_within.
Qed.

(** ** The claims about the dispatcher *)

(** C6.  A registry entry matches a line exactly when the line starts with
    the entry's name and the character of the line right behind that prefix
    is a space, NUL, carriage return or line feed, so "sett" does not match
    "set"; the search takes the entries in registration order and selects
    the first one that matches, and a call from Idle invokes that entry
    whatever entries follow it. *)
Theorem first_match_wins :
  (forall name line,
     command_matches name line = true
     <-> exists rest, line = libc.cstr name ++ rest
                      /\ (libc.deref rest = CHAR_SPACE
                          \/ libc.deref rest = CHAR_NULL
                          \/ libc.deref rest = CHAR_CARRIAGE_RET
                          \/ libc.deref rest = CHAR_NEWLINE))
  /\ command_matches (lit "set") (lit "sett") = false
  /\ (forall st input i,
        is_first_match st input i ->
        fst (find_command st input (Z.to_nat (g_command_count st)) 0) = i)
  /\ (forall (W : Type) user_interpreter st (w : W) input buf write_buffer_len i,
        command_index st = 0 -> is_first_match st input i ->
        arity_ok st input i ->
        cli_process_command user_interpreter st w (Some input) (Some buf)
          write_buffer_len
        = invoke_slot user_interpreter st w i input buf write_buffer_len).
Proof.
  split; [|split; [reflexivity|split]].
  - intros name line. rewrite command_matches_spec.
    by setoid_rewrite is_delimiter_spec.
  - intros st input i Hfirst.
    rewrite (find_command_first st input i _ 0 Hfirst); [done| |lia].
    destruct Hfirst; lia.
  - intros. by apply process_first_match.
Qed.

Lemma first_match_wins_witness :
  is_first_match shadow_state (lit "set a b") 1
  /\ command_matches (p_command (slot shadow_state 3)) (lit "set a b") = true
  /\ fst (find_command shadow_state (lit "set a b")
            (Z.to_nat (g_command_count shadow_state)) 0) = 1.
Proof.
  assert (is_first_match shadow_state (lit "set a b") 1) as H.
  { split; [by vm_compute|]. split; [reflexivity|].
    intros j Hj. by replace j with 0 by lia. }
  split; [exact H|]. split; [reflexivity|].
  exact (proj1 (proj2 (proj2 first_match_wins)) shadow_state (lit "set a b") 1 H).
Defined.

(** C5 (amended).  In a call from Idle, when the first matching entry has
    a fixed arity (>= 0) that differs from the parameter count of the line,
    the call copies the incorrect-parameters message into the buffer with
    [strncpy] limited to [write_buffer_len], does not run the handler and
    returns CLI_FALSE; when no entry matches it does the same with the
    not-recognized message.  The buffer then holds the verbatim message
    whenever [write_buffer_len] exceeds the length of the message. *)
Theorem dispatch_error_replies (W : Type) user_interpreter st (w : W)
    input buf write_buffer_len :
  command_index st = 0 ->
  let r := cli_process_command user_interpreter st w (Some input) (Some buf)
             write_buffer_len in
  (forall i, is_first_match st input i -> arity_mismatch st input i ->
     r.1.1.1 = CLI_FALSE
     /\ r.1.1.2 = Some (libc.strncpy buf CLI_MSG_INCORRECT_PARAMS
                         (Z.to_nat write_buffer_len))
     /\ r.2 = w
     /\ (Z.of_nat (length CLI_MSG_INCORRECT_PARAMS) < write_buffer_len ->
         answers r CLI_MSG_INCORRECT_PARAMS))
  /\ (no_match st input ->
     r.1.1.1 = CLI_FALSE
     /\ r.1.1.2 = Some (libc.strncpy buf CLI_MSG_NOT_RECOGNIZED
                         (Z.to_nat write_buffer_len))
     /\ r.2 = w
     /\ (Z.of_nat (length CLI_MSG_NOT_RECOGNIZED) < write_buffer_len ->
         answers r CLI_MSG_NOT_RECOGNIZED)).
Proof.
  intros Hidle r. subst r. split.
  - intros i Hfirst Hbad.
    rewrite (process_arity_mismatch user_interpreter st w input buf
               write_buffer_len i Hidle Hfirst Hbad).
    cbn [fst snd]. repeat split. eexists. split; [done|].
    apply cstr_strncpy. change (libc.strlen CLI_MSG_INCORRECT_PARAMS)
      with (length CLI_MSG_INCORRECT_PARAMS). lia.
  - intros Hnone.
    rewrite (process_no_match user_interpreter st w input buf
               write_buffer_len Hidle Hnone).
    cbn [fst snd]. repeat split. eexists. split; [done|].
    apply cstr_strncpy. change (libc.strlen CLI_MSG_NOT_RECOGNIZED)
      with (length CLI_MSG_NOT_RECOGNIZED). lia.
Qed.

Lemma no_match_frobnicate : no_match main_state (lit "frobnicate").
Proof.
  intros j Hj. change (g_command_count main_state) with 3 in Hj.
  assert (j = 0 \/ j = 1 \/ j = 2) as [->|[->| ->]] by lia; reflexivity.
Qed.

Lemma dispatch_error_replies_witness :
  command_index main_state = 0
  /\ answers (cli_process_command no_user_interpreter main_state tt
               (Some (lit "frobnicate")) (Some response_buffer)
               CLI_WRITE_BUFFER_SIZE)
      CLI_MSG_NOT_RECOGNIZED.
Proof.
  split; [reflexivity|].
  apply (dispatch_error_replies unit no_user_interpreter main_state tt
           (lit "frobnicate") response_buffer CLI_WRITE_BUFFER_SIZE eq_refl).
  - exact no_match_frobnicate.
  - reflexivity.
Defined.

(** C5 as stated fails for a buffer shorter than the message: with a
    capacity of 8 the unknown command "frobnicate" leaves "Command " in
    front of the old contents, not the verbatim message. *)
Lemma error_reply_truncated :
  ~ error_replies no_user_interpreter main_state tt (lit "frobnicate")
      short_buffer 8.
Proof.
  intros H. destruct (H eq_refl) as [_ H'].
  destruct (H' no_match_frobnicate) as [[_ (b & Hb & Hc)] _].
  vm_compute in Hb. injection Hb as <-. vm_compute in Hc. discriminate.
Qed.

(** The continuation protocol at the slots other than 0.  When the call
    invokes the handler of such a slot and the handler returns a value other
    than CLI_FALSE, the cursor is left at that slot and the next call,
    whatever its line, invokes the same handler without searching the
    registry or checking the arity; when the handler returns CLI_FALSE the
    cursor is 0.  A cursor that was not 0 becomes 0 only in a call whose
    handler returned CLI_FALSE. *)
Lemma continuation_resumes :
  (forall (W : Type) user_interpreter st (w : W) i input buf write_buffer_len,
     i <> 0 ->
     continuation_protocol user_interpreter st w i input buf write_buffer_len)
  /\ (forall (W : Type) user_interpreter st (w : W) input buf write_buffer_len,
        let r := cli_process_command user_interpreter st w (Some input)
                   (Some buf) write_buffer_len in
        command_index st <> 0 -> command_index r.1.2 = 0 ->
        r.1.1.1 = CLI_FALSE
        /\ r = invoke_slot user_interpreter st w (command_index st) input buf
                 write_buffer_len).
Proof.
  split.
  - intros W ui st w i input buf len Hi Hsel r.
    assert (r = invoke_slot ui st w i input buf len /\ i < g_command_count st)
      as [Hr Hlt].
    { destruct Hsel as [(Hidle & Hfirst & Hok)|(Hcur & _ & Hlt)].
      - split; [by apply process_first_match|]. destruct Hfirst; lia.
      - split; [|done]. subst i. by apply process_continuing. }
    clearbody r. subst r. unfold invoke_slot.
    destruct (call_interpreter _ _ _ _ _ _ _) as [[r0 b] w']. cbn [fst snd].
    destruct (Z.eqb_spec CLI_FALSE r0) as [Hr0|Hr0];
      cbn [command_index set_command_index].
    + split; [by intros []|done].
    + split; [|by intros ->]. intros _. split; [done|].
      intros input' buf' len'.
      apply (process_continuing ui (set_command_index st i) w' input' buf' len');
        [done|exact Hlt].
  - intros W ui st w input buf len r Hne Hzero.
    destruct (Z.lt_ge_cases (command_index st) (g_command_count st)) as [Hlt|Hge].
    + pose proof (process_continuing ui st w input buf len Hne Hlt) as Hr.
      fold r in Hr. split; [|done]. rewrite Hr in Hzero |- *.
      unfold invoke_slot in *.
      destruct (call_interpreter _ _ _ _ _ _ _) as [[r0 b] w']. cbn [fst snd] in *.
      destruct (Z.eqb_spec CLI_FALSE r0) as [Hr0|Hr0]; [done|]. by cbn in Hzero.
    + pose proof (process_stale ui st w input buf len Hne Hge) as Hr.
      fold r in Hr. rewrite Hr in Hzero. by cbn in Hzero.
Qed.

Lemma selects_stream_first : selects stream_first_state (lit "stream") 0.
Proof.
  left. split; [reflexivity|]. split; [|by right].
  split; [by vm_compute|]. split; [reflexivity|]. intros j Hj. lia.
Qed.

(** A dispatch to slot 0 leaves the state exactly as it was, idle, whatever
    the handler returned: a handler in slot 0 that reports more output
    pending leaves no trace in the cursor. *)
Lemma slot_0_dispatch_leaves_idle (W : Type) user_interpreter st (w : W)
    input buf write_buffer_len :
  command_index st = 0 -> is_first_match st input 0 -> arity_ok st input 0 ->
  (cli_process_command user_interpreter st w (Some input) (Some buf)
     write_buffer_len).1.2 = st.
Proof.
  intros Hidle Hfirst Hok.
  rewrite (process_first_match user_interpreter st w input buf
             write_buffer_len 0 Hidle Hfirst Hok).
  unfold invoke_slot.
  destruct (call_interpreter _ _ _ _ _ _ _) as [[r0 b] w']. cbn [fst snd].
  destruct st as [arr count idx]. cbn in Hidle. subst idx.
  by destruct (CLI_FALSE =? r0).
Qed.

(** C3, the code at the failing input.  The streaming command is registered
    first, in slot 0.  The line "stream" invokes its handler, which reports
    more output pending (CLI_TRUE); the cursor is 0, the value that also
    means Idle, and the globals are what they were before the call.  The
    next call does not re-invoke the handler: it searches the registry
    again on the line it is given, and for the line "frobnicate" it answers
    not-recognized and leaves the handler's state alone.  So the protocol
    the claim states fails at slot 0.  With the same command registered in
    slot 3, behind the built-in ones, the same two calls invoke the handler
    twice and the protocol holds. *)
Theorem pending_at_slot_0_not_resumed :
  let first :=
    cli_process_command slice_interpreter stream_first_state O
      (Some (lit "stream")) (Some response_buffer) CLI_WRITE_BUFFER_SIZE in
  let next :=
    cli_process_command slice_interpreter first.1.2 first.2
      (Some (lit "frobnicate")) (Some response_buffer) CLI_WRITE_BUFFER_SIZE in
  let first_at_3 :=
    cli_process_command slice_interpreter stream_last_state O
      (Some (lit "stream")) (Some response_buffer) CLI_WRITE_BUFFER_SIZE in
  let next_at_3 :=
    cli_process_command slice_interpreter first_at_3.1.2 first_at_3.2
      (Some (lit "frobnicate")) (Some response_buffer) CLI_WRITE_BUFFER_SIZE in
  (first.1.1.1 = CLI_TRUE /\ first.2 = 1%nat
   /\ command_index first.1.2 = 0 /\ first.1.2 = stream_first_state)
  /\ (answers next CLI_MSG_NOT_RECOGNIZED /\ next.2 = 1%nat
      /\ next <> invoke_slot slice_interpreter first.1.2 first.2 0
                    (lit "frobnicate") response_buffer CLI_WRITE_BUFFER_SIZE)
  /\ ~ continuation_protocol slice_interpreter stream_first_state O 0
        (lit "stream") response_buffer CLI_WRITE_BUFFER_SIZE
  /\ (first_at_3.1.1.1 = CLI_TRUE /\ first_at_3.2 = 1%nat
      /\ command_index first_at_3.1.2 = 3)
  /\ (next_at_3
      = invoke_slot slice_interpreter first_at_3.1.2 first_at_3.2 3
          (lit "frobnicate") response_buffer CLI_WRITE_BUFFER_SIZE
      /\ next_at_3.1.1.1 = CLI_TRUE /\ next_at_3.2 = 2%nat)
  /\ continuation_protocol slice_interpreter stream_last_state O 3
       (lit "stream") response_buffer CLI_WRITE_BUFFER_SIZE.
Proof.
  cbv zeta.
  split; [by vm_compute|].
  split; [split; [split; [|eexists; split]; by vm_compute|split; by vm_compute]|].
  split.
  { intros H. destruct (H selects_stream_first) as [Hpending _].
    destruct Hpending as [_ Hres]; [by vm_compute|].
    specialize (Hres (lit "frobnicate") response_buffer CLI_WRITE_BUFFER_SIZE).
    vm_compute in Hres. discriminate. }
  split; [by vm_compute|]. split; [by vm_compute|].
  apply (proj1 continuation_resumes). discriminate.
Qed.

(** C1, the code at the failing inputs.  With the registry of [main.c] and
    the cursor at 0, the unknown line "frobnicate" returns CLI_FALSE and
    leaves the cursor at 3, and the line "set a" (one parameter for an arity
    of 2) returns CLI_FALSE and leaves the cursor at 1.  The next line
    "help" is then answered with the not-recognized message in the first
    case and handed to the set handler, which reports a missing parameter,
    in the second. *)
Theorem error_paths_keep_cursor :
  let unknown :=
    cli_process_command no_user_interpreter main_state tt
      (Some (lit "frobnicate")) (Some response_buffer) CLI_WRITE_BUFFER_SIZE in
  let mismatch :=
    cli_process_command no_user_interpreter main_state tt
      (Some (lit "set a")) (Some response_buffer) CLI_WRITE_BUFFER_SIZE in
  (unknown.1.1.1 = CLI_FALSE /\ command_index unknown.1.2 = 3)
  /\ (mismatch.1.1.1 = CLI_FALSE /\ command_index mismatch.1.2 = 1)
  /\ answers (cli_process_command no_user_interpreter unknown.1.2 tt
                (Some (lit "help")) (Some response_buffer)
                CLI_WRITE_BUFFER_SIZE)
       CLI_MSG_NOT_RECOGNIZED
  /\ answers (cli_process_command no_user_interpreter mismatch.1.2 tt
                (Some (lit "help")) (Some response_buffer)
                CLI_WRITE_BUFFER_SIZE)
       CLI_MSG_MISSING_PARAM.
Proof.
  cbv zeta. repeat split; try (eexists; split; [| ]); vm_compute; reflexivity.
Qed.

(** The same in general: both error paths return with the cursor where the
    search left it. *)
Lemma error_paths_cursor (W : Type) user_interpreter st (w : W) input buf
    write_buffer_len :
  command_index st = 0 ->
  let r := cli_process_command user_interpreter st w (Some input) (Some buf)
             write_buffer_len in
  (forall i, is_first_match st input i -> arity_mismatch st input i ->
     r.1.1.1 = CLI_FALSE /\ command_index r.1.2 = i)
  /\ (no_match st input ->
      r.1.1.1 = CLI_FALSE
      /\ command_index r.1.2 = Z.max 0 (g_command_count st)).
Proof.
  intros Hidle r. subst r. split.
  - intros i Hfirst Hbad.
    by rewrite (process_arity_mismatch user_interpreter st w input buf
                  write_buffer_len i Hidle Hfirst Hbad).
  - intros Hnone.
    by rewrite (process_no_match user_interpreter st w input buf
                  write_buffer_len Hidle Hnone).
Qed.

(** C2, the code at the failing input.  With a capacity of 8 the line
    "set a b" makes the set handler write the 12 bytes of "Set a = b\r\n"
    and its terminator: the bytes at offsets 8 to 11, behind the capacity,
    are overwritten.  The get handler formats its reply in the same way. *)
Theorem set_reply_overruns_buffer :
  let r := cli_process_command no_user_interpreter main_state tt
             (Some (lit "set a b")) (Some short_buffer) 8 in
  r.1.1.2 = Some (lit "Set a = b" ++ CRLF ++ [CHAR_NULL] ++ lit "####")
  /\ snd (cli_set_interpreter (Some short_buffer) 8 (Some (lit "set a b")))
     = r.1.1.2
  /\ snd (cli_get_interpreter (Some short_buffer) 8 (Some (lit "get k")))
     = Some (lit "Get k: [value not implemented]" ++ CRLF ++ [CHAR_NULL])
  /\ forall b, r.1.1.2 = Some b -> ~ same_beyond 8 short_buffer b.
Proof.
  cbv zeta. split; [by vm_compute|]. split; [by vm_compute|].
  split; [by vm_compute|].
  intros b Hb Hsame. vm_compute in Hb. injection Hb as <-.
  specialize (Hsame 8%nat (Nat.le_refl _)). vm_compute in Hsame. discriminate.
Qed.

(** ** The set handler *)

(** Staging a parameter leaves exactly the parameter as the string of the
    staging array, whatever the array held before. *)
Lemma stage_cstr junk q :
  libc.cstr (stage junk q (Z.of_nat (word_len q))) = take (word_len q) q.
Proof.
  unfold stage. rewrite Nat2Z.id. set (n := word_len q).
  pose proof (word_len_le q) as Hle. fold n in Hle.
  assert (libc.strncpy junk q n = take n q ++ drop n junk) as ->.
  { unfold libc.strncpy. rewrite store_0. destruct (cstr_word q) as [rest ->].
    fold n. rewrite <- app_assoc, take_app_length'; [|by rewrite length_take; lia].
    do 2 f_equal. rewrite length_take. lia. }
  unfold libc.store.
  rewrite take_app_length' by (rewrite length_take; lia).
  replace (n - length (take n q ++ drop n junk))%nat with O
    by (rewrite length_app, length_take; lia).
  cbn [replicate app]. apply cstr_terminated, word_nul_free.
Qed.

Lemma lit_set_nul_free (k v : list ascii) :
  nul_free k -> nul_free v ->
  nul_free (lit "Set " ++ k ++ lit " = " ++ v ++ CRLF).
Proof.
  intros Hk Hv. unfold nul_free. rewrite !Forall_app.
  repeat split; try done; repeat constructor; discriminate.
Qed.

Lemma missing_param_reply buf n :
  (length CLI_MSG_MISSING_PARAM < n)%nat ->
  libc.cstr (libc.strncpy buf CLI_MSG_MISSING_PARAM n) = CLI_MSG_MISSING_PARAM.
Proof. intros H. by rewrite cstr_strncpy. Qed.

(** C4 (amended).  The set handler always returns CLI_FALSE.  When the
    buffer capacity exceeds the length of the reply, the buffer holds
    "Set <key> = <value>\r\n" if parameters 1 and 2 are both present and
    each is shorter than 50 characters, and the missing-parameter message
    otherwise; "set a b" is answered with "Set a = b\r\n". *)
Theorem set_interpreter_spec :
  (forall p_write_buffer write_buffer_len p_command_string,
     fst (cli_set_interpreter p_write_buffer write_buffer_len p_command_string)
     = CLI_FALSE)
  /\ (forall line buf write_buffer_len,
        Z.of_nat (length (set_reply_text below_50 line)) < write_buffer_len ->
        set_reply below_50 line buf write_buffer_len)
  /\ answers (cli_process_command no_user_interpreter main_state tt
                (Some (lit "set a b")) (Some response_buffer)
                CLI_WRITE_BUFFER_SIZE)
       (lit "Set a = b" ++ CRLF).
Proof.
  split; [|split; [|split; [reflexivity|eexists; split; reflexivity]]].
  - intros [buf|] len [line|]; try reflexivity. unfold cli_set_interpreter.
    destruct (get_param line 1) as [[key|] kl]; [|done].
    destruct (kl <? 50); [|done].
    destruct (get_param line 2) as [[value|] vl]; [|done].
    by destruct (vl <? 50).
  - intros line buf len. unfold set_reply, set_reply_text, cli_set_interpreter.
    unfold below_50.
    destruct (get_param line 1) as [[key|] kl] eqn:E1.
    2:{ intros Hlen. split; [done|]. eexists. split; [done|].
        apply missing_param_reply. lia. }
    destruct (kl <? 50) eqn:Ek; cbn [andb].
    2:{ destruct (get_param line 2) as [[value|] vl];
          (intros Hlen; split; [done|]; eexists; split; [done|];
           apply missing_param_reply; lia). }
    destruct (get_param line 2) as [[value|] vl] eqn:E2.
    2:{ intros Hlen. split; [done|]. eexists. split; [done|].
        apply missing_param_reply. lia. }
    destruct (vl <? 50) eqn:Ev.
    2:{ intros Hlen. split; [done|]. eexists. split; [done|].
        apply missing_param_reply. lia. }
    intros _. split; [done|]. eexists. split; [done|].
    apply get_param_some in E1 as [-> _]. apply get_param_some in E2 as [-> _].
    rewrite !stage_cstr, !Nat2Z.id.
    apply cstr_sprintf, lit_set_nul_free; apply word_nul_free.
Qed.

Lemma set_interpreter_spec_witness :
  Z.of_nat (length (set_reply_text below_50 (lit "set a b")))
    < CLI_WRITE_BUFFER_SIZE
  /\ set_reply below_50 (lit "set a b") response_buffer CLI_WRITE_BUFFER_SIZE.
Proof.
  split; [reflexivity|].
  apply (proj1 (proj2 set_interpreter_spec) (lit "set a b") response_buffer
           CLI_WRITE_BUFFER_SIZE).
  reflexivity.
Defined.

(** C4 as stated fails for a parameter of exactly 50 characters, which
    does not exceed 50 and is still answered with the missing-parameter
    message, and for a buffer too short for that message. *)
Lemma set_reply_as_worded_fails :
  ~ set_reply within_50 long_key_line response_buffer CLI_WRITE_BUFFER_SIZE
  /\ ~ set_reply within_50 (lit "set") short_buffer 8.
Proof.
  split; intros [_ (b & Hb & Hc)]; vm_compute in Hb; injection Hb as <-;
    vm_compute in Hc; discriminate.
Qed.

(** ** The help handler stays within the buffer *)

Lemma length_store m off bytes :
  length (libc.store m off bytes)
  = Nat.max (length m) (off + length bytes).
Proof.
  unfold libc.store.
  rewrite !length_app, length_take, length_replicate, length_drop. lia.
Qed.

Lemma cstr_strncat dst src k :
  libc.cstr (libc.strncat dst src k)
  = libc.cstr dst ++ take k (libc.cstr src).
Proof.
  unfold libc.strncat, libc.store.
  pose proof (strlen_le dst).
  replace (libc.strlen dst - length dst)%nat with O by lia.
  rewrite cstr_prefix. cbn [replicate app].
  rewrite cstr_app by apply cstr_nul_free. f_equal.
  rewrite <- app_assoc. apply cstr_terminated.
  unfold nul_free. apply Forall_take, cstr_nul_free.
Qed.

Lemma strlen_strncat dst src k :
  libc.strlen (libc.strncat dst src k)
  = (libc.strlen dst + Nat.min k (libc.strlen src))%nat.
Proof.
  unfold libc.strlen at 1. rewrite cstr_strncat, length_app, length_take.
  reflexivity.
Qed.

Lemma strncat_within n dst src k :
  (libc.strlen dst + Nat.min k (libc.strlen src) + 1 <= n)%nat ->
  same_beyond n dst (libc.strncat dst src k).
Proof.
  intros H. apply store_within.
  rewrite length_app, length_take. cbn [length]. unfold libc.strlen in *. lia.
Qed.

Lemma length_strncat n dst src k :
  (libc.strlen dst + Nat.min k (libc.strlen src) + 1 <= n)%nat ->
  (length (libc.strncat dst src k) <= Nat.max (length dst) n)%nat.
Proof.
  intros H. unfold libc.strncat. rewrite length_store.
  rewrite length_app, length_take. cbn [length]. unfold libc.strlen in *. lia.
Qed.

Lemma help_entry_inv n buf0 buf write_buffer_len current_len name B :
  write_buffer_len = Z.of_nat n ->
  Z.of_nat (libc.strlen name) <= B ->
  Z.of_nat (Nat.max (length buf0) n) + B + 5 < 2 ^ 32 ->
  help_inv n buf0 buf current_len ->
  help_inv n buf0 (fst (help_entry buf write_buffer_len current_len name))
    (snd (help_entry buf write_buffer_len current_len name)).
Proof.
  intros -> HB Hsize (Hsame & -> & Hlen). unfold help_entry.
  pose proof (strlen_le buf) as Hsl.
  rewrite Z.mod_small by lia.
  destruct (Z.ltb_spec (Z.of_nat (libc.strlen buf)
                        + Z.of_nat (libc.strlen name) + 5) (Z.of_nat n))
    as [Hfit|Hfull]; cbn [fst snd]; [|done].
  rewrite Z.mod_small by lia.
  set (room := Z.to_nat (Z.of_nat n - Z.of_nat (libc.strlen buf) - 1)).
  assert (libc.strlen name + 4 <= room)%nat as Hroom by lia.
  set (buf1 := libc.strncat buf (lit "  ") room).
  set (buf2 := libc.strncat buf1 name room).
  set (buf3 := libc.strncat buf2 CRLF room).
  assert (libc.strlen buf1 = libc.strlen buf + 2)%nat as L1.
  { subst buf1. rewrite strlen_strncat. change (libc.strlen (lit "  ")) with 2%nat.
    lia. }
  assert (libc.strlen buf2 = libc.strlen buf + 2 + libc.strlen name)%nat as L2.
  { subst buf2. rewrite strlen_strncat. lia. }
  assert (libc.strlen buf3 = libc.strlen buf + 2 + libc.strlen name + 2)%nat
    as L3.
  { subst buf3. rewrite strlen_strncat. change (libc.strlen CRLF) with 2%nat.
    lia. }
  assert (same_beyond n buf buf1 /\ (length buf1 <= Nat.max (length buf) n)%nat)
    as [S1 N1].
  { subst buf1. split; [apply strncat_within|apply length_strncat];
      change (libc.strlen (lit "  ")) with 2%nat; lia. }
  assert (same_beyond n buf1 buf2 /\ (length buf2 <= Nat.max (length buf1) n)%nat)
    as [S2 N2].
  { subst buf2. split; [apply strncat_within|apply length_strncat]; lia. }
  assert (same_beyond n buf2 buf3 /\ (length buf3 <= Nat.max (length buf2) n)%nat)
    as [S3 N3].
  { subst buf3. split; [apply strncat_within|apply length_strncat];
      change (libc.strlen CRLF) with 2%nat; lia. }
  split; [|split; [done|lia]].
  eauto using same_beyond_trans.
Qed.

Lemma help_loop_inv st n buf0 B write_buffer_len : forall fuel cmd_index buf current_len,
  write_buffer_len = Z.of_nat n ->
  (forall j, Z.of_nat (libc.strlen (p_command (slot st j))) <= B) ->
  Z.of_nat (Nat.max (length buf0) n) + B + 5 < 2 ^ 32 ->
  help_inv n buf0 buf current_len ->
  same_beyond n buf0
    (help_loop st fuel cmd_index buf write_buffer_len current_len).
Proof.
  intros fuel. induction fuel as [|fuel IH];
    intros cmd_index buf current_len Hn HB Hsize Hinv; cbn [help_loop].
  - apply Hinv.
  - destruct (cmd_index <? g_command_count st); [|apply Hinv].
    destruct (0 =? cmd_index); [by apply IH|].
    pose proof (help_entry_inv n buf0 buf write_buffer_len current_len
                  (p_command (slot st cmd_index)) B Hn (HB _) Hsize Hinv) as H.
    destruct (help_entry _ _ _ _) as [buf' current_len']. by apply IH.
Qed.

(** X8 (cli_help_interpreter): the help listing never writes at or behind
    [write_buffer_len], however many commands are registered: entries that
    do not fit are left out. *)
Lemma help_within_capacity st buf write_buffer_len p_command_string B :
  0 <= write_buffer_len ->
  (forall j, Z.of_nat (libc.strlen (p_command (slot st j))) <= B) ->
  Z.of_nat (length buf) + B + 5 < 2 ^ 32 ->
  write_buffer_len + B + 5 < 2 ^ 32 ->
  exists b,
    snd (cli_help_interpreter st (Some buf) write_buffer_len p_command_string)
    = Some b
    /\ same_beyond (Z.to_nat write_buffer_len) buf b.
Proof.
  intros Hlen HB Hsize1 Hsize2. unfold cli_help_interpreter. cbn [snd].
  eexists. split; [reflexivity|].
  set (n := Z.to_nat write_buffer_len).
  apply (help_loop_inv st n buf B); [lia|done|lia|].
  split; [|split; [done|]].
  - eapply same_beyond_trans; [apply memset0_within|apply strncpy_within].
  - unfold libc.strncpy, libc.memset0. rewrite !length_store.
    rewrite length_take, length_replicate. lia.
Qed.

(** * Further properties of the tokenizer *)

(** X1 (cli_get_parameter, cli_get_parameter_count): the two tokenizer
    functions agree on every line.  [cli_get_parameter] returns a parameter
    for index [n] exactly when [1 <= n <= cli_get_parameter_count line];
    index 0, negative indexes and indexes above the count give NULL. *)
Theorem parameter_present_iff_counted line n v :
  is_Some (fst (cli_get_parameter (Some line) n (Some v)))
  <-> 1 <= n <= cli_get_parameter_count (Some line).
Proof.
  change (cli_get_parameter (Some line) n (Some v))
    with (cli_get_parameter (Some line) n (Some 0)).
  rewrite get_parameter_words, parameter_count_words.
  destruct (Z.ltb_spec 0 n) as [Hn|Hn].
  - destruct (word_spans_from true O line !! Z.to_nat (n - 1)) as [[o l]|] eqn:E.
    + apply lookup_lt_Some in E. cbn. split; [lia|eauto].
    + apply lookup_ge_None in E. cbn. split; [by intros [? [=]]|lia].
  - cbn. split; [by intros [? [=]]|lia].
Qed.

Lemma word_len_line_text s : (word_len s <= length (line_text s))%nat.
Proof.
  induction s as [|c s IH]; cbn [word_len line_text]; [done|].
  unfold is_word_char. destruct (is_eol c); cbn; [lia|].
  destruct (is_space c); cbn; lia.
Qed.

Lemma line_text_length s : (length (line_text s) <= length s)%nat.
Proof.
  induction s as [|c s IH]; cbn [line_text length]; [done|].
  destruct (is_eol c); cbn [length]; lia.
Qed.

Lemma word_spans_bounds s : forall b off i o l,
  word_spans_from b off s !! i = Some (o, l) ->
  (if b then off < o else off <= o)%nat
  /\ (o + l <= off + length (line_text s))%nat.
Proof.
  induction s as [|c s IH]; intros b off i o l;
    cbn [word_spans_from line_text]; [done|].
  destruct (is_eol c) eqn:Ec; [done|]. destruct (is_space c) eqn:Sc.
  - intros H. apply IH in H as (H1 & H2). cbn [length] in *. cbv iota in H1.
    split; [destruct b; cbv iota; lia|lia].
  - assert (forall i, word_spans_from true (S off) s !! i = Some (o, l) ->
              (off < o)%nat /\ (o + l <= off + length (c :: line_text s))%nat)
      as Htail.
    { intros i' H. apply IH in H as (H1 & H2). cbn [length] in *.
      cbv iota in H1. lia. }
    destruct b; cbn [app].
    + intros H. by apply Htail in H.
    + destruct i as [|i]; cbn [lookup list_lookup].
      * intros [= <- <-]. split; [lia|].
        pose proof (word_len_line_text (c :: s)) as Hw.
        cbn [line_text word_len] in Hw. rewrite Ec in Hw. lia.
      * intros H. apply Htail in H. split; [lia|tauto].
Qed.

(** X2 (cli_get_parameter): a returned parameter lies inside the line.  The
    pointer is the line advanced by some offset [o >= 1], the reported length
    is positive, and the [l] characters from [o] on end at or before the
    first NUL, CR or LF of the line. *)
Theorem parameter_within_line line n v p l :
  cli_get_parameter (Some line) n (Some v) = (Some p, Some l) ->
  exists o : nat,
    p = drop o line /\ (1 <= o)%nat /\ 0 < l
    /\ Z.of_nat o + l <= Z.of_nat (length (line_text line)).
Proof.
  intros H. pose proof (get_parameter_word line n v p l H) as (Hpos & _).
  change (cli_get_parameter (Some line) n (Some v))
    with (cli_get_parameter (Some line) n (Some 0)) in H.
  rewrite get_parameter_words in H.
  destruct (0 <? n); [|done].
  destruct (word_spans_from true O line !! Z.to_nat (n - 1)) as [[o k]|] eqn:E;
    [|done].
  injection H as <- <-. exists o.
  apply word_spans_bounds in E as (H1 & H2). repeat split; lia.
Qed.

Lemma word_spans_after_word s : forall off i o l,
  word_spans_from true off s !! i = Some (o, l) -> (off + word_len s < o)%nat.
Proof.
  induction s as [|c s IH]; intros off i o l; cbn [word_spans_from word_len];
    [done|].
  unfold is_word_char.
  destruct (is_eol c); [done|]. destruct (is_space c); cbn [negb andb app].
  - intros H. apply word_spans_bounds in H as [H _]. cbv iota in H. lia.
  - intros H. apply IH in H. lia.
Qed.

Lemma word_spans_adjacent s : forall b off i o l o' l',
  word_spans_from b off s !! i = Some (o, l) ->
  word_spans_from b off s !! S i = Some (o', l') ->
  (o + l < o')%nat.
Proof.
  induction s as [|c s IH]; intros b off i o l o' l'; cbn [word_spans_from];
    [done|].
  destruct (is_eol c) eqn:Ec; [done|]. destruct (is_space c) eqn:Sc;
    [apply IH|].
  destruct b; cbn [app]; [apply IH|].
  destruct i as [|i]; cbn [lookup list_lookup]; [|apply IH].
  intros [= <- <-] H. apply word_spans_after_word in H.
  cbn [word_len]. unfold is_word_char. rewrite Ec, Sc. cbn [negb andb]. lia.
Qed.

(** X3 (cli_get_parameter): parameters come out in line order and do not
    overlap.  When parameters [n] and [n + 1] both exist, parameter [n + 1]
    starts strictly behind the last character of parameter [n]. *)
Theorem parameters_in_order line n v p l p' l' :
  cli_get_parameter (Some line) n (Some v) = (Some p, Some l) ->
  cli_get_parameter (Some line) (n + 1) (Some v) = (Some p', Some l') ->
  exists o o' : nat,
    p = drop o line /\ p' = drop o' line /\ Z.of_nat o + l < Z.of_nat o'.
Proof.
  change (cli_get_parameter (Some line) n (Some v))
    with (cli_get_parameter (Some line) n (Some 0)).
  change (cli_get_parameter (Some line) (n + 1) (Some v))
    with (cli_get_parameter (Some line) (n + 1) (Some 0)).
  rewrite !get_parameter_words.
  destruct (Z.ltb_spec 0 n) as [Hn|Hn]; [|done].
  destruct (Z.ltb_spec 0 (n + 1)) as [_|]; [|lia].
  replace (Z.to_nat (n + 1 - 1)) with (S (Z.to_nat (n - 1))) by lia.
  destruct (word_spans_from true O line !! Z.to_nat (n - 1)) as [[o k]|] eqn:E1;
    [|done].
  destruct (word_spans_from true O line !! S (Z.to_nat (n - 1)))
    as [[o' k']|] eqn:E2; [|done].
  intros [= <- <-] [= <- <-]. exists o, o'.
  pose proof (word_spans_adjacent _ _ _ _ _ _ _ _ E1 E2). repeat split; lia.
Qed.

(** * Lines assembled from words *)

Lemma skip_word_app wc r :
  Forall (fun c => is_word_char c = true) wc ->
  is_word_char (libc.deref r) = false ->
  skip_word (wc ++ r) = r.
Proof.
  intros Hwc Hr. induction Hwc as [|c wc Hc _ IH]; cbn [app].
  - destruct r as [|c r]; [done|]. cbn [skip_word]. rewrite word_test.
    cbn in Hr. by rewrite Hr.
  - cbn [skip_word]. by rewrite word_test, Hc.
Qed.

Lemma skip_spaces_app k r :
  is_space (libc.deref r) = false ->
  skip_spaces (replicate k CHAR_SPACE ++ r) = r.
Proof.
  intros Hr. induction k as [|k IH]; cbn [replicate app].
  - destruct r as [|c r]; [done|]. cbn [skip_spaces]. rewrite space_test.
    cbn in Hr. by rewrite Hr.
  - cbn [skip_spaces]. by rewrite space_test.
Qed.

Lemma word_len_app w r :
  Forall (fun c => is_word_char c = true) w ->
  is_word_char (libc.deref r) = false ->
  word_len (w ++ r) = length w.
Proof.
  intros Hw Hr. induction Hw as [|c w Hc _ IH]; cbn [app].
  - destruct r as [|c r]; [done|]. cbn [word_len]. cbn in Hr. by rewrite Hr.
  - cbn [word_len length]. by rewrite Hc, IH.
Qed.

Lemma line_end_head tail :
  is_line_end tail -> is_word_char (libc.deref tail) = false.
Proof.
  intros (k & rest & -> & Hr). destruct k as [|k]; cbn [replicate app].
  - unfold is_word_char. by rewrite Hr.
  - reflexivity.
Qed.

Lemma join_params_head ps tail :
  is_line_end tail -> is_word_char (libc.deref (join_params ps tail)) = false.
Proof.
  intros Ht. destruct ps as [|[k w] ps]; cbn [join_params];
    [by apply line_end_head|reflexivity].
Qed.

Lemma word_head w r :
  is_word w ->
  is_eol (libc.deref (w ++ r)) = false /\ is_space (libc.deref (w ++ r)) = false.
Proof.
  intros [Hne Hw]. destruct w as [|c w]; [done|]. cbn.
  apply Forall_cons in Hw as [Hc _]. unfold is_word_char in Hc.
  by destruct (is_eol c), (is_space c).
Qed.

Lemma line_end_skip tail :
  is_line_end tail -> is_eol (libc.deref (skip_spaces tail)) = true.
Proof.
  intros (k & rest & -> & Hr). rewrite skip_spaces_app; [done|].
  destruct rest as [|c rest]; [done|]. cbn in *. unfold is_space, is_eol in *.
  destruct (Ascii.eqb_spec c CHAR_SPACE) as [->|]; [done|done].
Qed.

Lemma param_loop_join tail ps : forall fuel wc found wanted,
  is_line_end tail ->
  Forall (fun p => is_word p.2) ps ->
  Forall (fun c => is_word_char c = true) wc ->
  found < wanted -> wanted - found <= Z.of_nat fuel ->
  param_loop fuel (wc ++ join_params ps tail) found wanted 0
  = match ps !! Z.to_nat (wanted - found - 1) with
    | Some (k, w) =>
        (Some (w ++ join_params (drop (Z.to_nat (wanted - found)) ps) tail),
         Z.of_nat (length w))
    | None => (None, 0)
    end.
Proof.
  induction ps as [|[k w] ps IH]; intros fuel wc found wanted Ht Hps Hwc Hlt Hfuel;
    (destruct fuel as [|fuel]; [lia|]); cbn [param_loop]; cbv zeta;
    (destruct (Z.ltb_spec found wanted); [|lia]);
    (rewrite (skip_word_app wc); [|done|by apply join_params_head]).
  - cbn [join_params]. rewrite eol_test, (line_end_skip tail Ht). reflexivity.
  - apply Forall_cons in Hps as [Hw Hps]. cbn [snd] in Hw.
    cbn [join_params].
    rewrite skip_spaces_app by (by destruct (word_head w (join_params ps tail) Hw)).
    destruct (word_head w (join_params ps tail) Hw) as [He Hs].
    rewrite eol_test, He. cbn [negb].
    destruct (Z.eqb_spec (found + 1) wanted) as [Heq|Hne].
    + replace (Z.to_nat (wanted - found - 1)) with O by lia.
      replace (Z.to_nat (wanted - found)) with 1%nat by lia.
      cbn [lookup list_lookup drop]. rewrite measure_word_len.
      rewrite word_len_app; [|by destruct Hw|by apply join_params_head].
      destruct Hw as [Hne Hw]. destruct w as [|c w]; [done|].
      cbn [length]. destruct (Z.eqb_spec 0 (0 + Z.of_nat (S (length w)))); [lia|].
      f_equal.
    + rewrite (IH fuel w (found + 1) wanted); [|done|done|by destruct Hw|lia|lia].
      replace (Z.to_nat (wanted - found - 1))
        with (S (Z.to_nat (wanted - (found + 1) - 1))) by lia.
      replace (Z.to_nat (wanted - found))
        with (S (Z.to_nat (wanted - (found + 1)))) by lia.
      reflexivity.
Qed.

Lemma word_spans_wordchars wc r : forall off,
  Forall (fun c => is_word_char c = true) wc ->
  length (word_spans_from true off (wc ++ r))
  = length (word_spans_from true off r).
Proof.
  intros off Hwc. revert off.
  induction Hwc as [|c wc Hc _ IH]; intros off; cbn [app]; [done|].
  cbn [word_spans_from]. unfold is_word_char in Hc.
  destruct (is_eol c); [done|]. destruct (is_space c); [done|].
  cbn [app]. rewrite IH. apply word_spans_length_off.
Qed.

Lemma word_spans_spaces k r : forall b off,
  length (word_spans_from b off (replicate k CHAR_SPACE ++ r))
  = length (word_spans_from (if k is O then b else false) off r).
Proof.
  induction k as [|k IH]; intros b off; cbn [replicate app]; [done|].
  cbn [word_spans_from]. change (is_eol CHAR_SPACE) with false.
  change (is_space CHAR_SPACE) with true. cbv iota.
  rewrite IH. destruct k; apply word_spans_length_off.
Qed.

Lemma word_count_join tail ps : forall wc off,
  is_line_end tail ->
  Forall (fun p => is_word p.2) ps ->
  Forall (fun c => is_word_char c = true) wc ->
  length (word_spans_from true off (wc ++ join_params ps tail)) = length ps.
Proof.
  induction ps as [|[k w] ps IH]; intros wc off Ht Hps Hwc;
    rewrite word_spans_wordchars by done; cbn [join_params length].
  - destruct Ht as (k & rest & -> & Hr). rewrite word_spans_spaces.
    by rewrite word_spans_at_eol.
  - apply Forall_cons in Hps as [[Hne Hw] Hps]. cbn [snd] in *.
    rewrite word_spans_spaces. cbv iota.
    destruct w as [|c w]; [done|]. apply Forall_cons in Hw as [Hc Hw].
    cbn [app word_spans_from]. unfold is_word_char in Hc.
    destruct (is_eol c); [done|]. destruct (is_space c); [done|].
    cbn [app length]. f_equal. by apply IH.
Qed.

(** X4 (cli_get_parameter_count, cli_get_parameter): round trip of the
    tokenizer.  For a line built from a command word, then the words [ps],
    each after one or more spaces, then a run of spaces and a line end, the
    count is the number of words [ps], parameter [n] points at the [n]-th of
    them with its exact length, and every other index gives NULL with length
    0. *)
Theorem tokenizer_round_trip cmd ps tail :
  Forall (fun c => is_word_char c = true) cmd ->
  Forall (fun p => is_word p.2) ps ->
  is_line_end tail ->
  cli_get_parameter_count (Some (cmd ++ join_params ps tail))
  = Z.of_nat (length ps)
  /\ forall n v,
       cli_get_parameter (Some (cmd ++ join_params ps tail)) n (Some v)
       = match (if 0 <? n then ps !! Z.to_nat (n - 1) else None) with
         | Some (k, w) =>
             (Some (w ++ join_params (drop (Z.to_nat n) ps) tail),
              Some (Z.of_nat (length w)))
         | None => (None, Some 0)
         end.
Proof.
  intros Hcmd Hps Ht. split.
  - by rewrite parameter_count_words, word_count_join.
  - intros n v. unfold cli_get_parameter.
    destruct (Z.ltb_spec 0 n) as [Hn|Hn].
    + rewrite (param_loop_join tail ps (Z.to_nat n) cmd 0 n) by (done || lia).
      replace (n - 0 - 1) with (n - 1) by lia. replace (n - 0) with n by lia.
      by destruct (ps !! Z.to_nat (n - 1)) as [[k w]|].
    + by replace (Z.to_nat n) with O by lia.
Qed.

(** * The help listing *)

Lemma help_loop_from st write_buffer_len : forall fuel cmd_index buf current_len,
  1 <= cmd_index ->
  Z.of_nat fuel = Z.max 0 (g_command_count st - cmd_index) ->
  help_loop st fuel cmd_index buf write_buffer_len current_len
  = help_entries buf write_buffer_len current_len
      (map (fun j => p_command (slot st (Z.of_nat j)))
         (seq (Z.to_nat cmd_index) fuel)).
Proof.
  induction fuel as [|fuel IH]; intros cmd_index buf current_len Hidx Hfuel;
    cbn [help_loop seq map help_entries]; [done|].
  destruct (Z.ltb_spec cmd_index (g_command_count st)); [|lia].
  destruct (Z.eqb_spec 0 cmd_index); [lia|].
  rewrite Z2Nat.id by lia.
  destruct (help_entry _ _ _ _) as [buf' current_len'].
  rewrite IH by lia. do 3 f_equal. lia.
Qed.

Lemma help_loop_names st buf write_buffer_len current_len :
  help_loop st (Z.to_nat (g_command_count st)) 0 buf write_buffer_len current_len
  = help_entries buf write_buffer_len current_len (listed_names st).
Proof.
  unfold listed_names.
  destruct (Z.to_nat (g_command_count st)) as [|fuel] eqn:E; [done|].
  cbn [help_loop]. destruct (Z.ltb_spec 0 (g_command_count st)); [|lia].
  cbn [Z.eqb]. rewrite help_loop_from by lia.
  do 3 f_equal. lia.
Qed.

Lemma help_line_length name :
  length (help_line name) = (libc.strlen name + 4)%nat.
Proof.
  unfold help_line, libc.strlen. rewrite !length_app.
  change (length (lit "  ")) with 2%nat. change (length CRLF) with 2%nat. lia.
Qed.

(** One entry: appended whole when the room check passes, skipped
    otherwise. *)
Lemma help_entry_cstr buf write_buffer_len name :
  write_buffer_len + Z.of_nat (libc.strlen name) + 5 < 2 ^ 32 ->
  Z.of_nat (libc.strlen buf) < write_buffer_len ->
  let r := help_entry buf write_buffer_len (Z.of_nat (libc.strlen buf)) name in
  snd r = Z.of_nat (libc.strlen (fst r))
  /\ snd r < write_buffer_len
  /\ (libc.cstr (fst r) = libc.cstr buf ++ help_line name
      \/ (fst r = buf
          /\ write_buffer_len
             <= Z.of_nat (libc.strlen buf) + Z.of_nat (libc.strlen name) + 5)).
Proof.
  intros Hsize Hcur. unfold help_entry.
  rewrite Z.mod_small by lia.
  destruct (Z.ltb_spec (Z.of_nat (libc.strlen buf)
                        + Z.of_nat (libc.strlen name) + 5) write_buffer_len)
    as [Hfit|Hfull]; cbn [fst snd]; [|split; [done|split; [done|by right]]].
  rewrite Z.mod_small by lia.
  assert (libc.strlen name + 4
          <= Z.to_nat (write_buffer_len - Z.of_nat (libc.strlen buf) - 1))%nat
    as Hroom by lia.
  remember (Z.to_nat (write_buffer_len - Z.of_nat (libc.strlen buf) - 1))
    as room eqn:Eroom.
  assert (libc.cstr (libc.strncat (libc.strncat (libc.strncat buf (lit "  ") room)
                       name room) CRLF room)
          = libc.cstr buf ++ help_line name) as Hc.
  { rewrite !cstr_strncat. unfold help_line. rewrite <- !app_assoc.
    change (libc.cstr (lit "  ")) with (lit "  ").
    change (libc.cstr CRLF) with CRLF.
    rewrite !take_ge; [done| | |].
    - change (length CRLF) with 2%nat. lia.
    - unfold libc.strlen in Hroom. lia.
    - change (length (lit "  ")) with 2%nat. lia. }
  split; [done|]. split; [|by left].
  unfold libc.strlen at 1. rewrite Hc, length_app, help_line_length.
  unfold libc.strlen in *. lia.
Qed.

(** When everything fits, every name is listed. *)
Lemma help_entries_all write_buffer_len names : forall buf,
  write_buffer_len < 2 ^ 31 ->
  Z.of_nat (libc.strlen buf) + Z.of_nat (length (concat (map help_line names))) + 1
    < write_buffer_len ->
  libc.cstr (help_entries buf write_buffer_len (Z.of_nat (libc.strlen buf)) names)
  = libc.cstr buf ++ concat (map help_line names).
Proof.
  induction names as [|name names IH]; intros buf Hsize Hfit;
    cbn [help_entries map concat]; [by rewrite app_nil_r|].
  cbn [map concat] in Hfit. rewrite length_app, help_line_length in Hfit.
  destruct (help_entry_cstr buf write_buffer_len name) as (Hcur & Hlt & Hcase);
    [lia|lia|].
  destruct (help_entry _ _ _ _) as [buf' cur']. cbn [fst snd] in *. subst cur'.
  destruct Hcase as [Hc|[_ Hfull]]; [|lia].
  assert (libc.strlen buf' = libc.strlen buf + (libc.strlen name + 4))%nat as Hl.
  { unfold libc.strlen at 1. by rewrite Hc, length_app, help_line_length. }
  rewrite IH by lia. by rewrite Hc, <- app_assoc.
Qed.

(** The names kept are a subsequence of the names visited. *)
Lemma names_that_fit_sublist write_buffer_len names : forall text_len,
  sublist (names_that_fit write_buffer_len text_len names) names.
Proof.
  induction names as [|name names IH]; intros text_len; cbn [names_that_fit];
    [done|].
  destruct (_ <? _); by constructor.
Qed.

(** In general the listing loop appends exactly the names that fit, and the
    listing stays a terminated string shorter than the capacity. *)
Lemma help_entries_fit write_buffer_len names : forall buf,
  Forall (fun name =>
            write_buffer_len + Z.of_nat (libc.strlen name) + 5 < 2 ^ 32) names ->
  Z.of_nat (libc.strlen buf) < write_buffer_len ->
  libc.cstr (help_entries buf write_buffer_len
               (Z.of_nat (libc.strlen buf)) names)
  = libc.cstr buf
      ++ concat (map help_line
                   (names_that_fit write_buffer_len
                      (Z.of_nat (libc.strlen buf)) names))
  /\ Z.of_nat (libc.strlen (help_entries buf write_buffer_len
                              (Z.of_nat (libc.strlen buf)) names))
     < write_buffer_len.
Proof.
  induction names as [|name names IH]; intros buf Hnames Hcur;
    cbn [help_entries names_that_fit].
  - by rewrite app_nil_r.
  - apply Forall_cons in Hnames as [Hname Hnames].
    destruct (help_entry_cstr buf write_buffer_len name Hname Hcur)
      as (Hc' & Hlt & Hcase).
    rewrite help_line_length.
    destruct (help_entry _ _ _ _) as [buf' cur'] eqn:Hentry.
    cbn [fst snd] in *. subst cur'.
    destruct (IH buf' Hnames Hlt) as (Hc & Hbound). split; [|done].
    rewrite Hc. clear IH Hc Hbound.
    destruct (Z.ltb_spec (Z.of_nat (libc.strlen buf)
                          + Z.of_nat (libc.strlen name + 4) + 1)
                write_buffer_len) as [Hfit|Hfull].
    + assert (libc.cstr buf' = libc.cstr buf ++ help_line name) as Hone.
      { destruct Hcase as [Hone|[_ Hfull]]; [done|lia]. }
      assert (libc.strlen buf' = libc.strlen buf + (libc.strlen name + 4))%nat
        as Hl.
      { unfold libc.strlen at 1. by rewrite Hone, length_app, help_line_length. }
      rewrite Hone, Hl, Nat2Z.inj_add. cbn [map concat].
      by rewrite <- app_assoc.
    + assert (buf' = buf) as ->; [|done].
      unfold help_entry in Hentry. rewrite Z.mod_small in Hentry by lia.
      destruct (Z.ltb_spec (Z.of_nat (libc.strlen buf)
                            + Z.of_nat (libc.strlen name) + 5)
                  write_buffer_len); [lia|].
      by injection Hentry as <- _.
Qed.

Lemma help_header buf n :
  (21 < n)%nat ->
  libc.cstr (libc.strncpy (libc.memset0 buf n) CLI_MSG_HELP_HEADER n)
  = CLI_MSG_HELP_HEADER.
Proof. intros H. by rewrite cstr_strncpy. Qed.

Lemma help_full_listing st buf write_buffer_len p_command_string :
  write_buffer_len < 2 ^ 31 ->
  Z.of_nat (length (help_listing (listed_names st))) + 1 < write_buffer_len ->
  exists b,
    cli_help_interpreter st (Some buf) write_buffer_len p_command_string
    = (CLI_FALSE, Some b)
    /\ libc.cstr b = help_listing (listed_names st).
Proof.
  intros Hsize Hfit. unfold cli_help_interpreter. eexists. split; [done|].
  unfold help_listing in *. rewrite length_app in Hfit.
  change (length CLI_MSG_HELP_HEADER) with 21%nat in Hfit.
  rewrite help_loop_names.
  set (buf0 := libc.strncpy _ _ _).
  assert (libc.cstr buf0 = CLI_MSG_HELP_HEADER) as Hh
    by (apply help_header; lia).
  assert (libc.strlen buf0 = 21%nat) as Hl by (unfold libc.strlen; by rewrite Hh).
  rewrite help_entries_all, Hh; [done|done|lia].
Qed.

(** X5 (cli_help_interpreter): with room to spare, help lists every
    command.  When the whole listing (header and one ["  <name>\r\n"] line
    for each registered command behind slot 0) is shorter than
    [write_buffer_len - 1], the buffer holds exactly that listing and the
    handler returns CLI_FALSE. *)
Theorem help_lists_every_command st buf write_buffer_len p_command_string :
  write_buffer_len < 2 ^ 31 ->
  Z.of_nat (length (help_listing (listed_names st))) + 1 < write_buffer_len ->
  exists b,
    cli_help_interpreter st (Some buf) write_buffer_len p_command_string
    = (CLI_FALSE, Some b)
    /\ libc.cstr b = help_listing (listed_names st)
    /\ Z.of_nat (libc.strlen b) + 1 < write_buffer_len.
Proof.
  intros Hsize Hfit.
  destruct (help_full_listing st buf write_buffer_len p_command_string Hsize Hfit)
    as (b & Hb & Hc).
  exists b. split; [done|]. split; [done|]. unfold libc.strlen. by rewrite Hc.
Qed.

(** X6 (cli_help_interpreter): for every capacity above the length of the
    header, help lists exactly the names that fit, in registration order.
    Going through the commands behind slot 0, a name is listed when the text
    written so far, its line ["  <name>\r\n"] and one more byte come to
    less than [write_buffer_len], and is skipped otherwise; a later name
    that fits is still listed.  The text is the header followed by the
    lines of these names and is shorter than [write_buffer_len]. *)
Theorem help_lists_names_that_fit st buf write_buffer_len p_command_string :
  Z.of_nat (length CLI_MSG_HELP_HEADER) < write_buffer_len ->
  Forall (fun name =>
            write_buffer_len + Z.of_nat (libc.strlen name) + 5 < 2 ^ 32)
    (listed_names st) ->
  let listed :=
    names_that_fit write_buffer_len (Z.of_nat (length CLI_MSG_HELP_HEADER))
      (listed_names st) in
  exists b,
    cli_help_interpreter st (Some buf) write_buffer_len p_command_string
    = (CLI_FALSE, Some b)
    /\ libc.cstr b = help_listing listed
    /\ sublist listed (listed_names st)
    /\ Z.of_nat (libc.strlen b) < write_buffer_len.
Proof.
  intros Hcap Hnames listed. subst listed. unfold cli_help_interpreter.
  change (length CLI_MSG_HELP_HEADER) with 21%nat in *.
  rewrite help_loop_names.
  set (buf0 := libc.strncpy _ _ _).
  assert (libc.cstr buf0 = CLI_MSG_HELP_HEADER) as Hh
    by (apply help_header; lia).
  assert (libc.strlen buf0 = 21%nat) as Hl by (unfold libc.strlen; by rewrite Hh).
  destruct (help_entries_fit write_buffer_len (listed_names st) buf0 Hnames)
    as (Hc & Hbound); [lia|].
  eexists. split; [done|].
  split; [by rewrite Hc, Hh, Hl|]. split; [apply names_that_fit_sublist|done].
Qed.

Lemma help_entries_full write_buffer_len names : forall buf current_len,
  0 <= write_buffer_len <= current_len ->
  Forall (fun name => current_len + Z.of_nat (libc.strlen name) + 5 < 2 ^ 32)
    names ->
  help_entries buf write_buffer_len current_len names = buf.
Proof.
  induction names as [|name names IH]; intros buf current_len Hcur Hnames;
    cbn [help_entries]; [done|].
  apply Forall_cons in Hnames as [Hname Hnames]. unfold help_entry.
  rewrite Z.mod_small by lia.
  destruct (Z.ltb_spec (current_len + Z.of_nat (libc.strlen name) + 5)
              write_buffer_len); [lia|].
  by apply IH.
Qed.

(** X7 (cli_help_interpreter): when [write_buffer_len] is at most the
    length of the header, the buffer receives the first [write_buffer_len]
    characters of the header with no terminating NUL inside its capacity, and
    no command is listed. *)
Theorem help_short_buffer st buf write_buffer_len p_command_string :
  0 <= write_buffer_len <= Z.of_nat (length CLI_MSG_HELP_HEADER) ->
  Forall (fun name =>
            Z.of_nat (length buf) + Z.of_nat (libc.strlen name) + 26 < 2 ^ 32)
    (listed_names st) ->
  cli_help_interpreter st (Some buf) write_buffer_len p_command_string
  = (CLI_FALSE,
     Some (take (Z.to_nat write_buffer_len) CLI_MSG_HELP_HEADER
             ++ drop (Z.to_nat write_buffer_len) buf)).
Proof.
  intros Hcap Hnames. unfold cli_help_interpreter.
  change (length CLI_MSG_HELP_HEADER) with 21%nat in Hcap.
  rewrite help_loop_names. set (n := Z.to_nat write_buffer_len).
  assert (libc.strncpy (libc.memset0 buf n) CLI_MSG_HELP_HEADER n
          = take n CLI_MSG_HELP_HEADER ++ drop n buf) as ->.
  { unfold libc.strncpy, libc.memset0. rewrite !store_0.
    change (libc.cstr CLI_MSG_HELP_HEADER) with CLI_MSG_HELP_HEADER.
    rewrite take_app_le by (change (length CLI_MSG_HELP_HEADER) with 21%nat; lia).
    rewrite length_take, length_replicate.
    change (length CLI_MSG_HELP_HEADER) with 21%nat.
    replace (n `min` 21)%nat with n by lia.
    rewrite drop_app_length' by (by rewrite length_replicate). done. }
  assert (n <= libc.strlen (take n CLI_MSG_HELP_HEADER ++ drop n buf))%nat as Hl.
  { unfold libc.strlen. rewrite cstr_app, length_app, length_take.
    - change (length CLI_MSG_HELP_HEADER) with 21%nat. lia.
    - apply Forall_take. repeat constructor; discriminate. }
  pose proof (strlen_le (take n CLI_MSG_HELP_HEADER ++ drop n buf)) as Hu.
  rewrite length_app, length_take, length_drop in Hu.
  change (length CLI_MSG_HELP_HEADER) with 21%nat in Hu.
  rewrite help_entries_full; [done|lia|].
  eapply Forall_impl; [exact Hnames|]. cbn beta. intros name Hname. lia.
Qed.

(** * The get handler, and the capacity the handlers need *)

Lemma sprintf_within n dst text :
  (length text + 1 <= n)%nat -> same_beyond n dst (libc.sprintf dst text).
Proof.
  intros H. apply store_within. rewrite length_app. cbn [length]. lia.
Qed.

Lemma lit_get_nul_free (k : list ascii) :
  nul_free k ->
  nul_free (lit "Get " ++ k ++ lit ": [value not implemented]" ++ CRLF).
Proof.
  intros Hk. unfold nul_free. rewrite !Forall_app.
  repeat split; try done; repeat constructor; discriminate.
Qed.

Lemma missing_reply_holds buf n :
  (length CLI_MSG_MISSING_PARAM < n)%nat ->
  libc.cstr (libc.strncpy (libc.memset0 buf n) CLI_MSG_MISSING_PARAM n)
  = CLI_MSG_MISSING_PARAM
  /\ same_beyond n buf
       (libc.strncpy (libc.memset0 buf n) CLI_MSG_MISSING_PARAM n).
Proof.
  intros Hn. split; [by apply missing_param_reply|].
  eapply same_beyond_trans; [apply memset0_within|apply strncpy_within].
Qed.

Lemma get_reply_holds line buf write_buffer_len :
  Z.of_nat (length (get_reply_text line)) < write_buffer_len ->
  exists b,
    snd (cli_get_interpreter (Some buf) write_buffer_len (Some line)) = Some b
    /\ libc.cstr b = get_reply_text line
    /\ same_beyond (Z.to_nat write_buffer_len) buf b.
Proof.
  unfold get_reply_text, cli_get_interpreter.
  destruct (get_param line 1) as [[key|] kl] eqn:E1.
  2:{ intros Hlen. eexists. split; [done|]. apply missing_reply_holds. lia. }
  destruct (kl <? 50) eqn:Ek.
  2:{ intros Hlen. eexists. split; [done|]. apply missing_reply_holds. lia. }
  intros Hlen. eexists. split; [done|].
  apply get_param_some in E1 as [-> _]. rewrite stage_cstr, Nat2Z.id in *.
  split.
  - apply cstr_sprintf, lit_get_nul_free, word_nul_free.
  - eapply same_beyond_trans; [apply memset0_within|apply sprintf_within]. lia.
Qed.

Lemma set_reply_holds line buf write_buffer_len :
  Z.of_nat (length (set_reply_text below_50 line)) < write_buffer_len ->
  exists b,
    snd (cli_set_interpreter (Some buf) write_buffer_len (Some line)) = Some b
    /\ libc.cstr b = set_reply_text below_50 line
    /\ same_beyond (Z.to_nat write_buffer_len) buf b.
Proof.
  unfold set_reply_text, below_50, cli_set_interpreter.
  destruct (get_param line 1) as [[key|] kl] eqn:E1.
  2:{ intros Hlen. eexists. split; [done|]. apply missing_reply_holds. lia. }
  destruct (kl <? 50) eqn:Ek; cbn [andb].
  2:{ destruct (get_param line 2) as [[value|] vl];
        (intros Hlen; eexists; split; [done|]; apply missing_reply_holds; lia). }
  destruct (get_param line 2) as [[value|] vl] eqn:E2.
  2:{ intros Hlen. eexists. split; [done|]. apply missing_reply_holds. lia. }
  destruct (vl <? 50) eqn:Ev.
  2:{ intros Hlen. eexists. split; [done|]. apply missing_reply_holds. lia. }
  intros Hlen. eexists. split; [done|].
  apply get_param_some in E1 as [-> _]. apply get_param_some in E2 as [-> _].
  rewrite !stage_cstr, !Nat2Z.id in *. split.
  - apply cstr_sprintf, lit_set_nul_free; apply word_nul_free.
  - eapply same_beyond_trans; [apply memset0_within|apply sprintf_within]. lia.
Qed.

Lemma get_interpreter_false p_write_buffer write_buffer_len p_command_string :
  fst (cli_get_interpreter p_write_buffer write_buffer_len p_command_string)
  = CLI_FALSE.
Proof.
  destruct p_write_buffer as [buf|], p_command_string as [line|];
    try reflexivity. unfold cli_get_interpreter.
  destruct (get_param line 1) as [[key|] kl]; [|done]. by destruct (kl <? 50).
Qed.

Lemma set_interpreter_false p_write_buffer write_buffer_len p_command_string :
  fst (cli_set_interpreter p_write_buffer write_buffer_len p_command_string)
  = CLI_FALSE.
Proof.
  destruct p_write_buffer as [buf|], p_command_string as [line|];
    try reflexivity. unfold cli_set_interpreter.
  destruct (get_param line 1) as [[key|] kl]; [|done].
  destruct (kl <? 50); [|done].
  destruct (get_param line 2) as [[value|] vl]; [|done].
  by destruct (vl <? 50).
Qed.


(** X9 (cli_get_interpreter): the get handler always returns CLI_FALSE, and
    when its reply (["Get <key>: [value not implemented]\r\n"] for a first
    parameter of fewer than 50 characters, the missing-parameter message
    otherwise) is shorter than [write_buffer_len], the buffer holds exactly
    that reply and nothing at or behind [write_buffer_len] is written. *)
Theorem get_interpreter_spec :
  (forall p_write_buffer write_buffer_len p_command_string,
     fst (cli_get_interpreter p_write_buffer write_buffer_len p_command_string)
     = CLI_FALSE)
  /\ (forall line buf write_buffer_len,
        Z.of_nat (length (get_reply_text line)) < write_buffer_len ->
        exists b,
          snd (cli_get_interpreter (Some buf) write_buffer_len (Some line))
          = Some b
          /\ libc.cstr b = get_reply_text line
          /\ same_beyond (Z.to_nat write_buffer_len) buf b).
Proof. split; [apply get_interpreter_false|apply get_reply_holds]. Qed.

Lemma set_reply_length line :
  (length (set_reply_text below_50 line) <= 107)%nat.
Proof.
  unfold set_reply_text, below_50.
  destruct (get_param line 1) as [[key|] kl]; [|cbn; lia].
  destruct (get_param line 2) as [[value|] vl]; [|cbn; lia].
  destruct (Z.ltb_spec kl 50); cbn [andb]; [|cbn; lia].
  destruct (Z.ltb_spec vl 50); [|cbn; lia].
  rewrite !length_app, !length_take.
  change (length (lit "Set ")) with 4%nat. change (length (lit " = ")) with 3%nat.
  change (length CRLF) with 2%nat. lia.
Qed.

Lemma get_reply_length line : (length (get_reply_text line) <= 80)%nat.
Proof.
  unfold get_reply_text.
  destruct (get_param line 1) as [[key|] kl]; [|cbn; lia].
  destruct (Z.ltb_spec kl 50); [|cbn; lia].
  rewrite !length_app, !length_take.
  change (length (lit "Get ")) with 4%nat.
  change (length (lit ": [value not implemented]")) with 25%nat.
  change (length CRLF) with 2%nat. lia.
Qed.

(** X10 (cli_set_interpreter, cli_get_interpreter): 108 bytes of buffer are
    enough for both handlers on every line.  With [write_buffer_len >= 108]
    neither handler writes at or behind [write_buffer_len], and both leave a
    NUL-terminated text shorter than the buffer. *)
Theorem handlers_within_108_bytes line buf write_buffer_len :
  108 <= write_buffer_len ->
  (exists b,
     snd (cli_set_interpreter (Some buf) write_buffer_len (Some line)) = Some b
     /\ same_beyond (Z.to_nat write_buffer_len) buf b
     /\ Z.of_nat (libc.strlen b) < write_buffer_len)
  /\ (exists b,
        snd (cli_get_interpreter (Some buf) write_buffer_len (Some line)) = Some b
        /\ same_beyond (Z.to_nat write_buffer_len) buf b
        /\ Z.of_nat (libc.strlen b) < write_buffer_len).
Proof.
  intros Hcap. split.
  - pose proof (set_reply_length line) as Hl.
    destruct (set_reply_holds line buf write_buffer_len) as (b & Hb & Hc & Hs);
      [lia|].
    exists b. split; [done|]. split; [done|]. unfold libc.strlen. rewrite Hc. lia.
  - pose proof (get_reply_length line) as Hl.
    destruct (get_reply_holds line buf write_buffer_len) as (b & Hb & Hc & Hs);
      [lia|].
    exists b. split; [done|]. split; [done|]. unfold libc.strlen. rewrite Hc. lia.
Qed.

(** * Further properties of the registry *)

Lemma register_ok st d :
  registry_ok st -> registry_ok (snd (cli_register_command st d)).
Proof.
  intros [Hlen Hcount]. unfold cli_register_command, registry_ok,
    CLI_MAX_COMMANDS in *.
  destruct d as [d|]; [|done]. rewrite Z.mod_small by lia.
  destruct (Z.ltb_spec (g_command_count st) 10); cbn; [|done].
  rewrite length_insert. lia.
Qed.

Lemma take_S_insert {A} (l : list A) n d :
  (n < length l)%nat -> take (S n) (<[n := d]> l) = take n l ++ [d].
Proof.
  revert n. induction l as [|x l IH]; intros [|n] H; cbn in *; try lia.
  - by rewrite take_0.
  - f_equal. apply IH. lia.
Qed.

(** X11 (cli_register_command): registering a list of commands one after
    the other appends those that fit, in order, behind the commands already
    registered; the count grows to at most CLI_MAX_COMMANDS, the commands
    beyond capacity are dropped, and the dispatch cursor is not touched. *)
Theorem register_all_spec st ds :
  registry_ok st ->
  let st' := register_all st ds in
  registry_ok st'
  /\ g_command_count st'
     = Z.min (g_command_count st + Z.of_nat (length ds)) CLI_MAX_COMMANDS
  /\ take (Z.to_nat (g_command_count st')) (g_commands_array st')
     = take (Z.to_nat (g_command_count st)) (g_commands_array st)
         ++ take (Z.to_nat (CLI_MAX_COMMANDS - g_command_count st)) ds
  /\ command_index st' = command_index st.
Proof.
  cbv zeta. revert st. induction ds as [|d ds IH]; intros st Hok.
  - destruct Hok as [Hlen Hcount]. cbn [register_all fold_left length].
    split; [done|]. split; [unfold CLI_MAX_COMMANDS in *; lia|].
    split; [|done]. by rewrite take_nil, app_nil_r.
  - change (register_all st (d :: ds))
      with (register_all (snd (cli_register_command st (Some d))) ds).
    pose proof (register_ok st (Some d) Hok) as Hok1.
    destruct (IH _ Hok1) as (Hok' & Hcount' & Harr' & Hidx').
    split; [done|]. rewrite Harr', Hcount', Hidx'. clear IH Hok' Hcount' Harr' Hidx'.
    destruct Hok as [Hlen Hcount]. unfold cli_register_command, CLI_MAX_COMMANDS in *.
    rewrite Z.mod_small by lia.
    destruct (Z.ltb_spec (g_command_count st) 10) as [Hlt|Hge];
      cbn [snd g_command_count g_commands_array command_index length].
    + split; [lia|]. split; [|done].
      replace (Z.to_nat (g_command_count st + 1))
        with (S (Z.to_nat (g_command_count st))) by lia.
      rewrite take_S_insert by lia.
      replace (Z.to_nat (10 - g_command_count st))
        with (S (Z.to_nat (10 - (g_command_count st + 1)))) by lia.
      cbn [take]. by rewrite <- app_assoc.
    + split; [lia|]. split; [|done].
      replace (Z.to_nat (10 - g_command_count st)) with O by lia.
      by rewrite !take_0.
Qed.

Lemma slot_register_new st d :
  registry_ok st -> g_command_count st < CLI_MAX_COMMANDS ->
  slot (snd (cli_register_command st (Some d))) (g_command_count st) = d.
Proof.
  intros [Hlen Hcount] Hlt. unfold cli_register_command, CLI_MAX_COMMANDS in *.
  rewrite Z.mod_small by lia.
  destruct (Z.ltb_spec (g_command_count st) 10); [|lia].
  unfold slot. cbn. by rewrite list_lookup_insert_eq by lia.
Qed.

Lemma slot_register_old st d j :
  0 <= j < g_command_count st ->
  slot (snd (cli_register_command st d)) j = slot st j.
Proof.
  intros Hj. unfold cli_register_command.
  destruct d as [d|]; [|done].
  destruct (_ <? _); [|done]. unfold slot. cbn.
  by rewrite list_lookup_insert_ne by lia.
Qed.

(** X12 (cli_register_command, cli_process_command): a command registered
    into a registry with a free slot is stored in slot [g_command_count];
    while the dispatcher is idle ([command_index] 0), a line that names it
    and no earlier command, with an accepted parameter count, is dispatched
    to the handler of that slot. *)
Theorem registered_command_dispatches (W : Type) user_interpreter st (w : W)
    d line buf write_buffer_len :
  registry_ok st -> g_command_count st < CLI_MAX_COMMANDS ->
  command_index st = 0 ->
  no_match st line ->
  command_matches (p_command d) line = true ->
  expected_parameter_count d < 0
  \/ cli_get_parameter_count (Some line) = expected_parameter_count d ->
  let st' := snd (cli_register_command st (Some d)) in
  slot st' (g_command_count st) = d
  /\ cli_process_command user_interpreter st' w (Some line) (Some buf)
       write_buffer_len
     = invoke_slot user_interpreter st' w (g_command_count st) line buf
         write_buffer_len.
Proof.
  intros Hok Hlt Hidle Hnone Hmatch Harity st'.
  pose proof (slot_register_new st d Hok Hlt) as Hslot. fold st' in Hslot.
  split; [done|]. apply process_first_match.
  - subst st'. unfold cli_register_command. by destruct (_ <? _).
  - destruct Hok as [Hlen Hcount]. split; [|split].
    + subst st'. unfold cli_register_command, CLI_MAX_COMMANDS in *.
      rewrite Z.mod_small by lia.
      destruct (Z.ltb_spec (g_command_count st) 10); [|lia]. cbn. lia.
    + by rewrite Hslot.
    + intros j Hj. subst st'. rewrite slot_register_old by lia.
      apply Hnone. lia.
  - unfold arity_ok. by rewrite Hslot.
Qed.

(** * Invariants of the dispatcher *)






(** * Dispatching to the built-in handlers *)



(** A line that is empty or begins with a space, CR or LF matches no entry
    whose name begins with another character. *)
Lemma delimiter_start_no_match name line :
  is_delimiter (libc.deref line) = true ->
  is_delimiter (libc.deref name) = false ->
  command_matches name line = false.
Proof.
  intros Hline Hname. destruct (command_matches name line) eqn:E; [|done].
  apply command_matches_spec in E as (rest & -> & _).
  destruct name as [|c name]; [done|]. cbn [libc.cstr] in Hline.
  cbn [libc.deref hd] in Hname.
  destruct (Ascii.eqb_spec c CHAR_NULL) as [->|]; [done|].
  cbn in Hline. congruence.
Qed.

(** X15 (cli_process_command): a line that starts with a space, NUL, CR or
    LF (an empty line in particular) matches no command whose name starts
    with an ordinary character; the reply is the not-recognized message. *)
Theorem blank_line_not_recognized (W : Type) user_interpreter st (w : W)
    line buf write_buffer_len :
  command_index st = 0 ->
  (forall j, 0 <= j < g_command_count st ->
     is_delimiter (libc.deref (p_command (slot st j))) = false) ->
  is_delimiter (libc.deref line) = true ->
  let r := cli_process_command user_interpreter st w (Some line) (Some buf)
             write_buffer_len in
  r.1.1.1 = CLI_FALSE
  /\ r.1.1.2 = Some (libc.strncpy buf CLI_MSG_NOT_RECOGNIZED
                      (Z.to_nat write_buffer_len))
  /\ r.2 = w.
Proof.
  intros Hidle Hnames Hline r. subst r.
  rewrite (process_no_match user_interpreter st w line buf write_buffer_len Hidle);
    [done|].
  intros j Hj. apply delimiter_start_no_match; [done|by apply Hnames].
Qed.

(** X16 (cli_process_command, cli_get_parameter_count, cli_get_parameter):
    on every line that the dispatcher matches against a command whose name
    does not start with a delimiter, the tokenizer counts exactly the words
    behind the first word, and [cli_get_parameter] finds exactly those
    words. *)
Theorem arity_check_counts_words st input i :
  is_first_match st input i ->
  is_delimiter (libc.deref (p_command (slot st i))) = false ->
  counts_parameter_words input
  /\ forall n, gets_parameter_word input n.
Proof.
  intros (_ & Hm & _) Hname.
  assert (libc.deref input <> CHAR_SPACE) as Hstart.
  { apply command_matches_spec in Hm as (rest & -> & _).
    destruct (p_command (slot st i)) as [|c name]; [done|].
    cbn [libc.cstr]. cbn [libc.deref hd] in Hname.
    destruct (Ascii.eqb_spec c CHAR_NULL) as [->|]; [done|]. cbn.
    intros ->. done. }
  split.
  - unfold counts_parameter_words.
    by rewrite parameter_count_words, parameter_words_from_start.
  - intros n v. unfold nth_parameter_word.
    rewrite parameter_words_from_start by done. apply get_parameter_words.
Qed.


(** * The shell of main.c *)

Lemma get_param_join cmd ps tail n :
  Forall (fun c => is_word_char c = true) cmd ->
  Forall (fun p => is_word p.2) ps ->
  is_line_end tail ->
  get_param (cmd ++ join_params ps tail) n
  = match (if 0 <? n then ps !! Z.to_nat (n - 1) else None) with
    | Some (k, w) =>
        (Some (w ++ join_params (drop (Z.to_nat n) ps) tail),
         Z.of_nat (length w))
    | None => (None, 0)
    end.
Proof.
  intros Hcmd Hps Ht. unfold get_param, cli_get_parameter.
  destruct (Z.ltb_spec 0 n) as [Hn|Hn].
  - rewrite (param_loop_join tail ps (Z.to_nat n) cmd 0 n) by (done || lia).
    replace (n - 0 - 1) with (n - 1) by lia. replace (n - 0) with n by lia.
    by destruct (ps !! Z.to_nat (n - 1)) as [[k w]|].
  - by replace (Z.to_nat n) with O by lia.
Qed.

Lemma word_chars_set : Forall (fun c => is_word_char c = true) (lit "set").
Proof. by repeat constructor. Qed.

Lemma word_chars_get : Forall (fun c => is_word_char c = true) (lit "get").
Proof. by repeat constructor. Qed.

Lemma first_match_set ps tail :
  is_first_match main_state (lit "set" ++ join_params ps tail) 1
  \/ ps = [].
Proof.
  destruct ps as [|[k w] ps]; [by right|left].
  split; [by vm_compute|]. split.
  - apply command_matches_spec. eexists. split; [reflexivity|]. reflexivity.
  - intros j Hj. replace j with 0 by lia.
    change (p_command (slot main_state 0)) with (lit "help").
    unfold command_matches. by destruct (is_delimiter _).
Qed.

Lemma first_match_get ps tail :
  is_first_match main_state (lit "get" ++ join_params ps tail) 2
  \/ ps = [].
Proof.
  destruct ps as [|[k w] ps]; [by right|left].
  split; [by vm_compute|]. split.
  - apply command_matches_spec. eexists. split; [reflexivity|]. reflexivity.
  - intros j Hj. assert (j = 0 \/ j = 1) as [->| ->] by lia.
    + change (p_command (slot main_state 0)) with (lit "help").
      unfold command_matches. by destruct (is_delimiter _).
    + change (p_command (slot main_state 1)) with (lit "set").
      unfold command_matches. by destruct (is_delimiter _).
Qed.

Lemma main_set_reply key value k1 k2 tail buf write_buffer_len :
  is_word key -> is_word value ->
  (length key < 50)%nat -> (length value < 50)%nat ->
  is_line_end tail -> 108 <= write_buffer_len ->
  let r := cli_process_command no_user_interpreter main_state tt
             (Some (lit "set" ++ join_params [(k1, key); (k2, value)] tail))
             (Some buf) write_buffer_len in
  answers r (lit "Set " ++ key ++ lit " = " ++ value ++ CRLF)
  /\ r.1.2 = main_state.
Proof.
  intros Hkey Hvalue Hkl Hvl Ht Hcap.
  assert (Forall (fun p : nat * list ascii => is_word p.2)
            [(k1, key); (k2, value)]) as Hps2
    by (apply Forall_cons; split; [done|]; apply Forall_cons; split;
        [done|constructor]).
  cbv zeta.
  set (line := lit "set" ++ join_params [(k1, key); (k2, value)] tail).
  destruct (first_match_set [(k1, key); (k2, value)] tail) as [Hfirst|]; [|done].
  fold line in Hfirst.
  assert (arity_ok main_state line 1) as Hok.
  { right. subst line.
    rewrite parameter_count_words, word_count_join by (done || apply word_chars_set).
    reflexivity. }
  change (@Some (list ascii) line) with (@Some mem line).
  rewrite (process_first_match no_user_interpreter main_state tt line buf
             write_buffer_len 1 eq_refl Hfirst Hok).
  unfold invoke_slot.
  change (p_command_interpreter (slot main_state 1)) with fn_set.
  cbn [call_interpreter].
  assert (set_reply_text below_50 line
          = lit "Set " ++ key ++ lit " = " ++ value ++ CRLF) as Htext.
  { unfold set_reply_text. subst line.
    rewrite !get_param_join by (done || apply word_chars_set).
    change (0 <? 1) with true. change (0 <? 2) with true.
    change (Z.to_nat (1 - 1)) with 0%nat. change (Z.to_nat (2 - 1)) with 1%nat.
    change (Z.to_nat 1) with 1%nat. change (Z.to_nat 2) with 2%nat.
    cbn [lookup list_lookup drop]. unfold below_50.
    destruct (Z.ltb_spec (Z.of_nat (length key)) 50); [|lia].
    destruct (Z.ltb_spec (Z.of_nat (length value)) 50); [|lia].
    cbn [andb]. by rewrite !Nat2Z.id, !take_app_length. }
  pose proof (set_reply_length line) as Hl.
  destruct (set_reply_holds line buf write_buffer_len) as (b & Hb & Hc & _);
    [lia|].
  pose proof (set_interpreter_false (Some buf) write_buffer_len (Some line))
    as Hf.
  destruct (cli_set_interpreter _ _ _) as [r0 ob]. cbn [fst snd] in *.
  subst r0 ob. cbn [default from_option id Z.eqb CLI_FALSE].
  split; [|reflexivity]. split; [done|]. exists b. by rewrite Hc, Htext.
Qed.

Lemma main_get_reply key k1 tail buf write_buffer_len :
  is_word key -> (length key < 50)%nat ->
  is_line_end tail -> 108 <= write_buffer_len ->
  let r := cli_process_command no_user_interpreter main_state tt
             (Some (lit "get" ++ join_params [(k1, key)] tail))
             (Some buf) write_buffer_len in
  answers r (lit "Get " ++ key ++ lit ": [value not implemented]" ++ CRLF)
  /\ r.1.2 = main_state.
Proof.
  intros Hkey Hkl Ht Hcap.
  assert (Forall (fun p : nat * list ascii => is_word p.2) [(k1, key)])
    as Hps1 by (apply Forall_cons; split; [done|constructor]).
  cbv zeta. set (line := lit "get" ++ join_params [(k1, key)] tail).
  destruct (first_match_get [(k1, key)] tail) as [Hfirst|]; [|done].
  fold line in Hfirst.
  assert (arity_ok main_state line 2) as Hok.
  { right. subst line.
    rewrite parameter_count_words, word_count_join by (done || apply word_chars_get).
    reflexivity. }
  change (@Some (list ascii) line) with (@Some mem line).
  rewrite (process_first_match no_user_interpreter main_state tt line buf
             write_buffer_len 2 eq_refl Hfirst Hok).
  unfold invoke_slot.
  change (p_command_interpreter (slot main_state 2)) with fn_get.
  cbn [call_interpreter].
  assert (get_reply_text line
          = lit "Get " ++ key ++ lit ": [value not implemented]" ++ CRLF)
    as Htext.
  { unfold get_reply_text. subst line.
    rewrite !get_param_join by (done || apply word_chars_get).
    change (0 <? 1) with true. change (Z.to_nat (1 - 1)) with 0%nat.
    change (Z.to_nat 1) with 1%nat. cbn [lookup list_lookup drop].
    destruct (Z.ltb_spec (Z.of_nat (length key)) 50); [|lia].
    by rewrite !Nat2Z.id, !take_app_length. }
  pose proof (get_reply_length line) as Hl.
  destruct (get_reply_holds line buf write_buffer_len) as (b & Hb & Hc & _);
    [lia|].
  pose proof (get_interpreter_false (Some buf) write_buffer_len (Some line))
    as Hf.
  destruct (cli_get_interpreter _ _ _) as [r0 ob]. cbn [fst snd] in *.
  subst r0 ob. cbn [default from_option id Z.eqb CLI_FALSE].
  split; [|reflexivity]. split; [done|]. exists b. by rewrite Hc, Htext.
Qed.

Lemma main_help_reply rest buf write_buffer_len :
  is_delimiter (libc.deref rest) = true ->
  36 < write_buffer_len < 2 ^ 31 ->
  let r := cli_process_command no_user_interpreter main_state tt
             (Some (lit "help" ++ rest)) (Some buf) write_buffer_len in
  answers r (help_listing [lit "set"; lit "get"]) /\ r.1.2 = main_state.
Proof.
  intros Hrest Hcap. cbv zeta. set (line := lit "help" ++ rest).
  assert (is_first_match main_state line 0) as Hfirst.
  { split; [by vm_compute|]. split; [|intros j Hj; lia].
    apply command_matches_spec. exists rest. by split. }
  assert (arity_ok main_state line 0) as Hok by (by left).
  change (@Some (list ascii) line) with (@Some mem line).
  rewrite (process_first_match no_user_interpreter main_state tt line buf
             write_buffer_len 0 eq_refl Hfirst Hok).
  unfold invoke_slot.
  change (p_command_interpreter (slot main_state 0)) with fn_help.
  change (set_command_index main_state 0) with main_state.
  cbn [call_interpreter].
  destruct (help_full_listing main_state buf write_buffer_len (@Some mem line))
    as (b & Hb & Hc);
    [lia|change (Z.of_nat (length (help_listing (listed_names main_state))))
           with 35; lia|].
  rewrite Hb. cbn [fst snd default from_option id Z.eqb CLI_FALSE].
  split; [|reflexivity]. split; [done|]. by exists b.
Qed.

(** X18 (cli_init, cli_process_command, built-in handlers): the shell as
    main.c sets it up.  With a buffer of at least 108 bytes, ["set" key
    value] with words of fewer than 50 characters answers ["Set <key> =
    <value>\r\n"], ["get" key] answers ["Get <key>: [value not
    implemented]\r\n"], and ["help"] followed by a delimiter answers the
    header and the lines for set and get; each leaves the state as it was. *)
Theorem main_shell_replies :
  (forall key value k1 k2 tail buf write_buffer_len,
     is_word key -> is_word value ->
     (length key < 50)%nat -> (length value < 50)%nat ->
     is_line_end tail -> 108 <= write_buffer_len ->
     let r := cli_process_command no_user_interpreter main_state tt
                (Some (lit "set" ++ join_params [(k1, key); (k2, value)] tail))
                (Some buf) write_buffer_len in
     answers r (lit "Set " ++ key ++ lit " = " ++ value ++ CRLF)
     /\ r.1.2 = main_state)
  /\ (forall key k1 tail buf write_buffer_len,
        is_word key -> (length key < 50)%nat ->
        is_line_end tail -> 108 <= write_buffer_len ->
        let r := cli_process_command no_user_interpreter main_state tt
                   (Some (lit "get" ++ join_params [(k1, key)] tail))
                   (Some buf) write_buffer_len in
        answers r (lit "Get " ++ key ++ lit ": [value not implemented]" ++ CRLF)
        /\ r.1.2 = main_state)
  /\ (forall rest buf write_buffer_len,
        is_delimiter (libc.deref rest) = true ->
        36 < write_buffer_len < 2 ^ 31 ->
        let r := cli_process_command no_user_interpreter main_state tt
                   (Some (lit "help" ++ rest)) (Some buf) write_buffer_len in
        answers r (lit "Available commands:" ++ CRLF ++ lit "  set" ++ CRLF
                     ++ lit "  get" ++ CRLF)
        /\ r.1.2 = main_state).
Proof.
  split; [|split].
  - intros. by apply main_set_reply.
  - intros. by apply main_get_reply.
  - intros. by apply main_help_reply.
Qed.

(** * nvic_enable_irq *)

(** X19 (nvic_enable_irq): for an interrupt number below 2^32 the register
    index is [irq_num / 32] and the value written is the single bit
    [irq_num mod 32], a non-zero 32-bit word; index and bit position give the
    interrupt number back. *)
Theorem nvic_enable_irq_bit irq_num :
  0 <= irq_num < 2 ^ 32 ->
  let r := main_c.nvic_enable_irq irq_num in
  fst r = irq_num / 32
  /\ snd r = 2 ^ (irq_num mod 32)
  /\ 0 < snd r < 2 ^ 32
  /\ (forall k, 0 <= k -> Z.testbit (snd r) k = (k =? irq_num mod 32))
  /\ irq_num = 32 * fst r + Z.log2 (snd r).
Proof.
  intros Hirq. unfold main_c.nvic_enable_irq. cbn [fst snd].
  assert (Z.land irq_num 31 = irq_num mod 32) as Hland
    by (change 31 with (Z.ones 5); by rewrite Z.land_ones).
  assert (0 <= irq_num mod 32 < 32) as Hmod by (apply Z.mod_pos_bound; lia).
  rewrite Z.shiftr_div_pow2 by lia. change (2 ^ 5) with 32.
  change 0x1F with 31. rewrite Hland, Z.shiftl_1_l.
  assert (2 ^ (irq_num mod 32) < 2 ^ 32) as Hlt
    by (apply Z.pow_lt_mono_r; lia).
  assert (0 < 2 ^ (irq_num mod 32)) as Hpos by (apply Z.pow_pos_nonneg; lia).
  rewrite Z.mod_small by lia.
  split; [done|]. split; [done|]. split; [lia|]. split.
  - intros k Hk. rewrite Z.pow2_bits_eqb by lia. apply Z.eqb_sym.
  - rewrite Z.log2_pow2 by lia. apply Z.div_mod. lia.
Qed.

(** * Instances *)

Lemma parameter_within_line_witness :
  cli_get_parameter (Some (lit "set key value")) 2 (Some 0)
  = (Some (lit "value"), Some 5)
  /\ exists o : nat,
       lit "value" = drop o (lit "set key value") /\ (1 <= o)%nat /\ 0 < 5
       /\ Z.of_nat o + 5 <= Z.of_nat (length (line_text (lit "set key value"))).
Proof.
  split; [reflexivity|].
  exact (parameter_within_line (lit "set key value") 2 0 (lit "value") 5 eq_refl).
Defined.

Lemma parameters_in_order_witness :
  cli_get_parameter (Some (lit "set key value")) 1 (Some 0)
  = (Some (lit "key value"), Some 3)
  /\ cli_get_parameter (Some (lit "set key value")) (1 + 1) (Some 0)
     = (Some (lit "value"), Some 5)
  /\ exists o o' : nat,
       lit "key value" = drop o (lit "set key value")
       /\ lit "value" = drop o' (lit "set key value")
       /\ Z.of_nat o + 3 < Z.of_nat o'.
Proof.
  split; [reflexivity|]. split; [reflexivity|].
  exact (parameters_in_order (lit "set key value") 1 0 (lit "key value") 3
           (lit "value") 5 eq_refl eq_refl).
Defined.

Lemma word_key : is_word (lit "key").
Proof. split; [discriminate|]. by repeat constructor. Qed.

Lemma word_value : is_word (lit "value").
Proof. split; [discriminate|]. by repeat constructor. Qed.

Lemma word_a : is_word (lit "a").
Proof. split; [discriminate|]. by repeat constructor. Qed.

Lemma word_b : is_word (lit "b").
Proof. split; [discriminate|]. by repeat constructor. Qed.

Lemma line_end_crlf : is_line_end CRLF.
Proof. exists O, CRLF. by split. Qed.

Lemma tokenizer_round_trip_witness :
  Forall (fun c => is_word_char c = true) (lit "set")
  /\ Forall (fun p : nat * list ascii => is_word p.2)
       [(O, lit "key"); (1%nat, lit "value")]
  /\ is_line_end CRLF
  /\ cli_get_parameter_count
       (Some (lit "set"
                ++ join_params [(O, lit "key"); (1%nat, lit "value")] CRLF))
     = 2.
Proof.
  assert (Forall (fun p : nat * list ascii => is_word p.2)
            [(O, lit "key"); (1%nat, lit "value")]) as Hps.
  { apply Forall_cons. split; [exact word_key|].
    apply Forall_cons. split; [exact word_value|constructor]. }
  split; [exact word_chars_set|]. split; [exact Hps|].
  split; [exact line_end_crlf|].
  exact (proj1 (tokenizer_round_trip (lit "set")
                  [(O, lit "key"); (1%nat, lit "value")] CRLF
                  word_chars_set Hps line_end_crlf)).
Defined.

Lemma help_lists_every_command_witness :
  CLI_WRITE_BUFFER_SIZE < 2 ^ 31
  /\ Z.of_nat (length (help_listing (listed_names main_state))) + 1
     < CLI_WRITE_BUFFER_SIZE
  /\ exists b,
       cli_help_interpreter main_state (Some response_buffer)
         CLI_WRITE_BUFFER_SIZE (Some (lit "help"))
       = (CLI_FALSE, Some b)
       /\ libc.cstr b = help_listing (listed_names main_state)
       /\ Z.of_nat (libc.strlen b) + 1 < CLI_WRITE_BUFFER_SIZE.
Proof.
  split; [reflexivity|]. split; [reflexivity|].
  apply (help_lists_every_command main_state response_buffer
           CLI_WRITE_BUFFER_SIZE (Some (lit "help"))); reflexivity.
Defined.

(** A registry in which the second listed name is too long for a buffer
    of 40 bytes and the third fits. *)
Lemma help_lists_names_that_fit_witness :
  Z.of_nat (length CLI_MSG_HELP_HEADER) < 40
  /\ listed_names long_name_state = [lit "set"; lit "configuration"; lit "get"]
  /\ exists b,
       cli_help_interpreter long_name_state (Some response_buffer) 40
         (Some (lit "help"))
       = (CLI_FALSE, Some b)
       /\ libc.cstr b = help_listing [lit "set"; lit "get"]
       /\ sublist [lit "set"; lit "get"] (listed_names long_name_state)
       /\ Z.of_nat (libc.strlen b) < 40.
Proof.
  split; [reflexivity|]. split; [reflexivity|].
  apply (help_lists_names_that_fit long_name_state response_buffer 40
           (Some (lit "help"))); [reflexivity|].
  change (listed_names long_name_state)
    with [lit "set"; lit "configuration"; lit "get"].
  repeat (apply Forall_cons; split; [reflexivity|]). constructor.
Defined.

Lemma help_short_buffer_witness :
  0 <= 8 <= Z.of_nat (length CLI_MSG_HELP_HEADER)
  /\ cli_help_interpreter main_state (Some short_buffer) 8 (Some (lit "help"))
     = (CLI_FALSE, Some (lit "Availabl" ++ lit "########")).
Proof.
  split; [split; discriminate|].
  apply (help_short_buffer main_state short_buffer 8 (Some (lit "help")));
    [split; discriminate|].
  change (listed_names main_state) with [lit "set"; lit "get"].
  apply Forall_cons. split; [reflexivity|].
  apply Forall_cons. split; [reflexivity|constructor].
Defined.

Lemma main_names_bound j :
  Z.of_nat (libc.strlen (p_command (slot main_state j))) <= 4.
Proof.
  unfold slot. destruct (Z.to_nat j) as [|[|[|n]]]; try (by vm_compute).
  change (g_commands_array main_state !! S (S (S n)))
    with (replicate 7 zero_command !! n).
  destruct (replicate 7 zero_command !! n) as [d|] eqn:E; [|by vm_compute].
  apply lookup_replicate in E as [-> _]. by vm_compute.
Qed.

Lemma help_within_capacity_witness :
  exists b,
    snd (cli_help_interpreter main_state (Some response_buffer)
           CLI_WRITE_BUFFER_SIZE (Some (lit "help")))
    = Some b
    /\ same_beyond (Z.to_nat CLI_WRITE_BUFFER_SIZE) response_buffer b.
Proof.
  apply (help_within_capacity main_state response_buffer CLI_WRITE_BUFFER_SIZE
           (Some (lit "help")) 4).
  - discriminate.
  - exact main_names_bound.
  - reflexivity.
  - reflexivity.
Defined.

Lemma get_interpreter_spec_witness :
  Z.of_nat (length (get_reply_text (lit "get k"))) < CLI_WRITE_BUFFER_SIZE
  /\ exists b,
       snd (cli_get_interpreter (Some response_buffer) CLI_WRITE_BUFFER_SIZE
              (Some (lit "get k")))
       = Some b
       /\ libc.cstr b = get_reply_text (lit "get k")
       /\ same_beyond (Z.to_nat CLI_WRITE_BUFFER_SIZE) response_buffer b.
Proof.
  split; [reflexivity|].
  apply (proj2 get_interpreter_spec (lit "get k") response_buffer
           CLI_WRITE_BUFFER_SIZE). reflexivity.
Defined.

Lemma handlers_within_108_bytes_witness :
  108 <= 108
  /\ exists b,
       snd (cli_set_interpreter (Some response_buffer) 108 (Some long_key_line))
       = Some b
       /\ same_beyond (Z.to_nat 108) response_buffer b
       /\ Z.of_nat (libc.strlen b) < 108.
Proof.
  split; [discriminate|].
  apply (proj1 (handlers_within_108_bytes long_key_line response_buffer 108
                  (Z.le_refl 108))).
Defined.

Lemma initial_state_ok : registry_ok initial_state.
Proof. split; [reflexivity|]. by vm_compute. Qed.

Lemma register_all_spec_witness :
  registry_ok initial_state
  /\ g_command_count
       (register_all initial_state
          [g_help_command; g_set_command; g_get_command])
     = Z.min (0 + 3) CLI_MAX_COMMANDS.
Proof.
  split; [exact initial_state_ok|].
  exact (proj1 (proj2 (register_all_spec initial_state
                         [g_help_command; g_set_command; g_get_command]
                         initial_state_ok))).
Defined.

Lemma no_match_stream : no_match main_state (lit "stream").
Proof.
  intros j Hj. change (g_command_count main_state) with 3 in Hj.
  assert (j = 0 \/ j = 1 \/ j = 2) as [->|[->| ->]] by lia; reflexivity.
Qed.

Lemma registered_command_dispatches_witness :
  slot stream_last_state (g_command_count main_state) = stream_command
  /\ cli_process_command slice_interpreter stream_last_state O
       (Some (lit "stream")) (Some response_buffer) CLI_WRITE_BUFFER_SIZE
     = invoke_slot slice_interpreter stream_last_state O
         (g_command_count main_state) (lit "stream") response_buffer
         CLI_WRITE_BUFFER_SIZE.
Proof.
  apply (registered_command_dispatches nat slice_interpreter main_state O
           stream_command (lit "stream") response_buffer CLI_WRITE_BUFFER_SIZE).
  - exact main_state_ok.
  - reflexivity.
  - reflexivity.
  - exact no_match_stream.
  - reflexivity.
  - right. reflexivity.
Defined.

Lemma first_match_set_a_b : is_first_match main_state (lit "set a b") 1.
Proof.
  split; [by vm_compute|]. split; [reflexivity|].
  intros j Hj. by replace j with 0 by lia.
Qed.


Lemma main_names_start j :
  0 <= j < g_command_count main_state ->
  is_delimiter (libc.deref (p_command (slot main_state j))) = false.
Proof.
  intros Hj. change (g_command_count main_state) with 3 in Hj.
  assert (j = 0 \/ j = 1 \/ j = 2) as [->|[->| ->]] by lia; reflexivity.
Qed.

Lemma blank_line_not_recognized_witness :
  (cli_process_command no_user_interpreter main_state tt (Some [])
     (Some response_buffer) CLI_WRITE_BUFFER_SIZE).1.1.1 = CLI_FALSE.
Proof.
  apply (blank_line_not_recognized unit no_user_interpreter main_state tt []
           response_buffer CLI_WRITE_BUFFER_SIZE).
  - reflexivity.
  - exact main_names_start.
  - reflexivity.
Defined.

Lemma arity_check_counts_words_witness :
  counts_parameter_words (lit "set a b").
Proof.
  apply (arity_check_counts_words main_state (lit "set a b") 1).
  - exact first_match_set_a_b.
  - reflexivity.
Defined.


Lemma main_shell_replies_witness :
  answers (cli_process_command no_user_interpreter main_state tt
             (Some (lit "set" ++ join_params [(O, lit "a"); (2%nat, lit "b")] CRLF))
             (Some response_buffer) CLI_WRITE_BUFFER_SIZE)
    (lit "Set " ++ lit "a" ++ lit " = " ++ lit "b" ++ CRLF).
Proof.
  apply (proj1 main_shell_replies (lit "a") (lit "b") O 2%nat CRLF
           response_buffer CLI_WRITE_BUFFER_SIZE).
  - exact word_a.
  - exact word_b.
  - cbn. lia.
  - cbn. lia.
  - exact line_end_crlf.
  - discriminate.
Defined.

Lemma nvic_enable_irq_bit_witness :
  0 <= main_c.USART2_IRQ_NUM < 2 ^ 32
  /\ main_c.nvic_enable_irq main_c.USART2_IRQ_NUM = (0, 2 ^ 28)
  /\ Z.testbit (snd (main_c.nvic_enable_irq main_c.USART2_IRQ_NUM)) 28 = true.
Proof.
  assert (0 <= main_c.USART2_IRQ_NUM < 2 ^ 32) as H by (split; [discriminate|reflexivity]).
  split; [exact H|]. split; [reflexivity|].
  destruct (nvic_enable_irq_bit main_c.USART2_IRQ_NUM H) as (_ & _ & _ & Hbit & _).
  rewrite (Hbit 28); [reflexivity|discriminate].
Defined.

